(** * VideoChat signaling relay: connection registry and message router

    A shallow embedding of [ConnectionManager], [handle_message] and
    [websocket_endpoint] of [video_server.py], and the properties of the
    registry and of the router stated by the specification.

    The coroutines of the source are modelled as state transformers that run
    one at a time, from their first statement to their last one.  The
    WebSocket objects belong to the framework: a socket is a value carrying
    what the transport answers to [accept], [send_json] and [close], and the
    state records which sockets the relay has closed and, in arrival order,
    every transport call and every mutation of the registry. *)

From Stdlib Require Import String List ZArith Bool Arith Lia.
Import ListNotations.
Open Scope string_scope.
Open Scope list_scope.

(** ** JSON values

    [json.loads] produces [None], booleans, numbers, strings, lists and
    dicts.  Numbers are kept to the integers; the relay never computes on
    an inbound number. *)

#[warnings="-register-all"]
Inductive json : Type :=
| JNull
| JBool (b : bool)
| JNum (n : Z)
| JStr (s : string)
| JList (items : list json)
| JObj (fields : list (string * json)).

(** ** Python dictionaries

    A [dict] keeps its keys in insertion order: [d[k] = v] overwrites in
    place when [k] is present and appends otherwise. *)

Section Dict.
Variable V : Type.

Fixpoint dict_get (d : list (string * V)) (k : string) : option V :=
  match d with
  | [] => None
  | (k', v) :: rest => if String.eqb k' k then Some v else dict_get rest k
  end.

Definition dict_contains (d : list (string * V)) (k : string) : bool :=
  match dict_get d k with Some _ => true | None => false end.

Fixpoint dict_set (d : list (string * V)) (k : string) (v : V)
  : list (string * V) :=
  match d with
  | [] => [(k, v)]
  | (k', v') :: rest =>
      if String.eqb k' k then (k', v) :: rest
      else (k', v') :: dict_set rest k v
  end.

(** [del d[k]]: the keys of a dict are unique, so this drops the entry
    of [k]. *)
Definition dict_del (d : list (string * V)) (k : string)
  : list (string * V) :=
  filter (fun kv => negb (String.eqb (fst kv) k)) d.

Definition dict_keys (d : list (string * V)) : list string := map fst d.
End Dict.

Arguments dict_get {V} d k.
Arguments dict_contains {V} d k.
Arguments dict_set {V} d k v.
Arguments dict_del {V} d k.
Arguments dict_keys {V} d.

(** [data.get(key)]: the value, or [None]; an [AttributeError] (here
    [None] of the option) when [data] is not a dict. *)
Definition json_get (data : json) (key : string) : option json :=
  match data with
  | JObj fields =>
      match dict_get fields key with
      | Some v => Some v
      | None => Some JNull
      end
  | _ => None
  end.

(** Truth value of a Python object in a condition. *)
Definition truthy (v : json) : bool :=
  match v with
  | JNull => false
  | JBool b => b
  | JNum n => negb (Z.eqb n 0)
  | JStr s => negb (String.eqb s "")
  | JList items => match items with [] => false | _ => true end
  | JObj fields => match fields with [] => false | _ => true end
  end.

(** [v == "literal"] for a value read from JSON. *)
Definition json_is_str (v : json) (literal : string) : bool :=
  match v with
  | JStr s => String.eqb s literal
  | _ => false
  end.

(** ** Transport *)

(** A WebSocket of the framework: an identity and what its transport
    answers to each of the three calls the relay makes. *)
Record WebSocket : Type := mkWebSocket {
  ws_id : nat;
  accept_raises : bool;
  send_raises : bool;
  close_raises : bool
}.

Definition ws_eqb (a b : WebSocket) : bool :=
  Nat.eqb (ws_id a) (ws_id b)
  && Bool.eqb (accept_raises a) (accept_raises b)
  && Bool.eqb (send_raises a) (send_raises b)
  && Bool.eqb (close_raises a) (close_raises b).

Inductive event : Type :=
| EvAccept (ws : WebSocket)
| EvAcceptFailed (ws : WebSocket)
| EvSent (ws : WebSocket) (message : json)
| EvSendFailed (ws : WebSocket) (message : json)
| EvClosed (ws : WebSocket)
| EvCloseFailed (ws : WebSocket)
| EvSet (client_id : string) (ws : WebSocket)
| EvDel (client_id : string).

(** ** State

    [active_connections] and [lock] are the two fields of
    [ConnectionManager]; [closed] and [trace] are the part of the world the
    relay acts on. *)
Record state : Type := mkState {
  active_connections : list (string * WebSocket);
  lock : bool;
  closed : list WebSocket;
  trace : list event
}.

Definition initial : state := mkState [] false [] [].

Definition set_connections (c : list (string * WebSocket)) (s : state) :=
  mkState c (lock s) (closed s) (trace s).
Definition set_lock (b : bool) (s : state) :=
  mkState (active_connections s) b (closed s) (trace s).
Definition add_closed (ws : WebSocket) (s : state) :=
  mkState (active_connections s) (lock s) (ws :: closed s) (trace s).
Definition record (e : event) (s : state) :=
  mkState (active_connections s) (lock s) (closed s) (trace s ++ [e]).

(** ** Coroutines

    A coroutine returns, raises, waits for ever on the lock, or (for the
    recursion between [broadcast] and [disconnect]) exhausts the bound
    given to it. *)
Inductive outcome (A : Type) : Type :=
| Return (a : A) (s : state)
| Raise (s : state)
| Blocked (s : state)
| OutOfFuel (s : state).

Arguments Return {A} a s.
Arguments Raise {A} s.
Arguments Blocked {A} s.
Arguments OutOfFuel {A} s.

Definition M (A : Type) : Type := state -> outcome A.

Definition ret {A} (a : A) : M A := fun s => Return a s.

Definition bind {A B} (m : M A) (k : A -> M B) : M B :=
  fun s =>
    match m s with
    | Return a s' => k a s'
    | Raise s' => Raise s'
    | Blocked s' => Blocked s'
    | OutOfFuel s' => OutOfFuel s'
    end.

Notation "x <- m ;; k" := (bind m (fun x => k))
  (at level 61, m at next level, right associativity).
Notation "m ;;; k" := (bind m (fun _ => k))
  (at level 61, right associativity).

Definition final_state {A} (o : outcome A) : state :=
  match o with
  | Return _ s => s
  | Raise s => s
  | Blocked s => s
  | OutOfFuel s => s
  end.

(** [try: body / except Exception: handler]. *)
Definition try_except {A} (body handler : M A) : M A :=
  fun s =>
    match body s with
    | Raise s' => handler s'
    | other => other
    end.

(** [try: body / finally: cleanup]. *)
Definition try_finally {A} (body : M A) (cleanup : M unit) : M A :=
  fun s =>
    match body s with
    | Return a s' => (cleanup ;;; ret a) s'
    | Raise s' => (cleanup ;;; (fun s'' => Raise s'')) s'
    | other => other
    end.

(** [async with self.lock: body].  [asyncio.Lock] is not re-entrant:
    acquiring it while it is held waits until it is released. *)
Definition with_lock {A} (body : M A) : M A :=
  fun s =>
    if lock s then Blocked s
    else
      match body (set_lock true s) with
      | Return a s' => Return a (set_lock false s')
      | Raise s' => Raise (set_lock false s')
      | other => other
      end.

(** *** Calls on a WebSocket *)

Definition is_closed (cl : list WebSocket) (ws : WebSocket) : bool :=
  existsb (ws_eqb ws) cl.

Definition can_send (cl : list WebSocket) (ws : WebSocket) : bool :=
  negb (send_raises ws) && negb (is_closed cl ws).

Definition accept (ws : WebSocket) : M unit :=
  fun s =>
    if accept_raises ws then Raise (record (EvAcceptFailed ws) s)
    else Return tt (record (EvAccept ws) s).

Definition send_json (ws : WebSocket) (message : json) : M unit :=
  fun s =>
    if can_send (closed s) ws then Return tt (record (EvSent ws message) s)
    else Raise (record (EvSendFailed ws message) s).

Definition close (ws : WebSocket) : M unit :=
  fun s =>
    if close_raises ws then Raise (record (EvCloseFailed ws) s)
    else Return tt (record (EvClosed ws) (add_closed ws s)).

(** *** Accesses to [self.active_connections] *)

Definition setitem (client_id : string) (ws : WebSocket) : M unit :=
  fun s =>
    Return tt (record (EvSet client_id ws)
                 (set_connections
                    (dict_set (active_connections s) client_id ws) s)).

Definition delitem (client_id : string) : M unit :=
  fun s =>
    Return tt (record (EvDel client_id)
                 (set_connections
                    (dict_del (active_connections s) client_id) s)).

Definition getitem (client_id : string) : M WebSocket :=
  fun s =>
    match dict_get (active_connections s) client_id with
    | Some ws => Return ws s
    | None => Raise s
    end.

Definition contains (client_id : string) : M bool :=
  fun s => Return (dict_contains (active_connections s) client_id) s.

Definition items : M (list (string * WebSocket)) :=
  fun s => Return (active_connections s) s.

Definition keys : M (list string) :=
  fun s => Return (dict_keys (active_connections s)) s.

Definition len_connections : M nat :=
  fun s => Return (length (active_connections s)) s.

(** ** Outbound messages *)

Definition connected_msg (client_id : string) : json :=
  JObj [("type", JStr "connected");
        ("client_id", JStr client_id);
        ("message", JStr "Соединение установлено")].

Definition user_joined_msg (client_id : string) (users_online : nat) : json :=
  JObj [("type", JStr "user_joined");
        ("client_id", JStr client_id);
        ("users_online", JNum (Z.of_nat users_online))].

Definition user_left_msg (client_id : string) (users_online : nat) : json :=
  JObj [("type", JStr "user_left");
        ("client_id", JStr client_id);
        ("users_online", JNum (Z.of_nat users_online))].

Definition users_list_msg (users : list string) : json :=
  JObj [("type", JStr "users_list");
        ("users", JList (map JStr users));
        ("users_online", JNum (Z.of_nat (length users)))].

(** ** ConnectionManager *)

(** [_safe_send_json]. *)
Definition _safe_send_json (websocket : WebSocket) (data : json) : M bool :=
  try_except (send_json websocket data ;;; ret true) (ret false).

(** [get_other_clients]. *)
Definition get_other_clients (client_id : string) : M (list string) :=
  fun s =>
    Return (filter (fun cid => negb (String.eqb cid client_id))
              (dict_keys (active_connections s))) s.

(** [client_id != exclude], where [exclude] defaults to [None]. *)
Definition not_excluded (client_id : string) (exclude : option string)
  : bool :=
  match exclude with
  | Some e => negb (String.eqb client_id e)
  | None => true
  end.

(** The loop of [broadcast] over the snapshot of the items. *)
Fixpoint broadcast_pass (message : json) (exclude : option string)
    (snapshot : list (string * WebSocket)) (disconnected : list string)
  : M (list string) :=
  match snapshot with
  | [] => ret disconnected
  | (client_id, websocket) :: rest =>
      if not_excluded client_id exclude then
        d <- try_except (send_json websocket message ;;; ret disconnected)
                        (ret (disconnected ++ [client_id])) ;;
        broadcast_pass message exclude rest d
      else broadcast_pass message exclude rest disconnected
  end.

(** [for client_id in disconnected: await self.disconnect(client_id)]. *)
Fixpoint disconnect_each (disconnect : string -> M unit)
    (disconnected : list string) : M unit :=
  match disconnected with
  | [] => ret tt
  | client_id :: rest =>
      disconnect client_id ;;; disconnect_each disconnect rest
  end.

(** [broadcast], with [self.disconnect] as a parameter. *)
Definition broadcast_with (disconnect : string -> M unit)
    (message : json) (exclude : option string) : M unit :=
  disconnected <- with_lock (snapshot <- items ;;
                             broadcast_pass message exclude snapshot []) ;;
  disconnect_each disconnect disconnected.

(** The block of [disconnect] that runs under the lock. *)
Definition disconnect_locked (client_id : string) : M unit :=
  with_lock
    (present <- contains client_id ;;
     if (present : bool) then
       try_finally
         (try_except (ws <- getitem client_id ;; close ws) (ret tt))
         (still <- contains client_id ;;
          if (still : bool) then delitem client_id else ret tt)
     else ret tt).

(** [disconnect]; [fuel] bounds the depth of the calls between
    [disconnect] and [broadcast]. *)
Fixpoint disconnect_ (fuel : nat) (client_id : string) : M unit :=
  match fuel with
  | O => fun s => OutOfFuel s
  | S fuel' =>
      disconnect_locked client_id ;;;
      n <- len_connections ;;
      broadcast_with (disconnect_ fuel') (user_left_msg client_id n) None
  end.

(** A bound that the recursion never reaches (see [disconnect_returns]). *)
Definition fuel_for (s : state) : nat :=
  2 * length (active_connections s) + 2.

Definition disconnect (client_id : string) : M unit :=
  fun s => disconnect_ (fuel_for s) client_id s.

Definition broadcast (message : json) (exclude : option string) : M unit :=
  fun s => broadcast_with (disconnect_ (fuel_for s)) message exclude s.

(** [connect]. *)
Definition connect (websocket : WebSocket) (client_id : string) : M unit :=
  accept websocket ;;;
  with_lock (setitem client_id websocket) ;;;
  _safe_send_json websocket (connected_msg client_id) ;;;
  other_users <- get_other_clients client_id ;;
  match other_users with
  | [] => ret tt
  | _ :: _ =>
      n <- len_connections ;;
      broadcast (user_joined_msg client_id n) (Some client_id)
  end.

(** [send_to].  The block under the lock yields [Some true] when it leaves
    the function through [return True]. *)
Definition send_to (target_id : string) (message : json) : M bool :=
  early <- with_lock
             (present <- contains target_id ;;
              if (present : bool) then
                try_except
                  (ws <- getitem target_id ;;
                   send_json ws message ;;;
                   ret (Some true))
                  (disconnect target_id ;;; ret None)
              else ret None) ;;
  match early with
  | Some b => ret b
  | None => ret false
  end.

(** ** Router *)

(** [data.get(key)] inside a coroutine. *)
Definition data_get (data : json) (key : string) : M json :=
  fun s =>
    match json_get data key with
    | Some v => Return v s
    | None => Raise s
    end.

(** [target and target in manager.active_connections].  A key that is not
    a string is never found; a list or a dict cannot be hashed
    ([TypeError]). *)
Definition target_registered (target : json) : M bool :=
  fun s =>
    if truthy target then
      match target with
      | JStr t => Return (dict_contains (active_connections s) t) s
      | JList _ | JObj _ => Raise s
      | _ => Return false s
      end
    else Return false s.

Definition target_id_of (target : json) : string :=
  match target with
  | JStr t => t
  | _ => ""
  end.

(** [handle_message]. *)
Definition handle_message (websocket : WebSocket) (client_id : string)
    (data : json) : M unit :=
  message_type <- data_get data "type" ;;
  if json_is_str message_type "get_users" then
    users <- keys ;;
    _safe_send_json websocket (users_list_msg users) ;;;
    ret tt
  else if json_is_str message_type "offer" then
    target <- data_get data "target" ;;
    ok <- target_registered target ;;
    if (ok : bool) then
      payload <- data_get data "offer" ;;
      send_to (target_id_of target)
        (JObj [("type", JStr "offer");
               ("offer", payload);
               ("sender", JStr client_id)]) ;;;
      ret tt
    else ret tt
  else if json_is_str message_type "answer" then
    target <- data_get data "target" ;;
    ok <- target_registered target ;;
    if (ok : bool) then
      payload <- data_get data "answer" ;;
      send_to (target_id_of target)
        (JObj [("type", JStr "answer");
               ("answer", payload);
               ("sender", JStr client_id)]) ;;;
      ret tt
    else ret tt
  else if json_is_str message_type "ice_candidate" then
    target <- data_get data "target" ;;
    ok <- target_registered target ;;
    if (ok : bool) then
      payload <- data_get data "candidate" ;;
      send_to (target_id_of target)
        (JObj [("type", JStr "ice_candidate");
               ("candidate", payload);
               ("sender", JStr client_id)]) ;;;
      ret tt
    else ret tt
  else ret tt.

(** What [websocket.receive_json()] yields, one element per call: a frame,
    or an exception ([WebSocketDisconnect] or any other).  The end of the
    list is the closure of the transport. *)
Inductive received : Type :=
| RecvJson (data : json)
| RecvRaises.

(** The [while True] loop of [websocket_endpoint]: both [except] clauses
    leave the loop. *)
Fixpoint receive_loop (websocket : WebSocket) (client_id : string)
    (inbox : list received) : M unit :=
  match inbox with
  | [] => ret tt
  | RecvRaises :: _ => ret tt
  | RecvJson data :: rest =>
      continue <- try_except
                    (handle_message websocket client_id data ;;; ret true)
                    (ret false) ;;
      if (continue : bool) then receive_loop websocket client_id rest
      else ret tt
  end.

(** [websocket_endpoint]. *)
Definition websocket_endpoint (websocket : WebSocket) (client_id : string)
    (inbox : list received) : M unit :=
  try_finally
    (try_except
       (connect websocket client_id ;;;
        receive_loop websocket client_id inbox)
       (ret tt))
    (disconnect client_id).

(** ** Vocabulary of the statements *)

(** The state with [events] appended to its trace. *)
Definition append_trace (events : list event) (s : state) : state :=
  mkState (active_connections s) (lock s) (closed s) (trace s ++ events).

(** What one [send_json] leaves in the trace. *)
Definition send_event (cl : list WebSocket) (ws : WebSocket) (message : json)
  : event :=
  if can_send cl ws then EvSent ws message else EvSendFailed ws message.

(** The entries a broadcast pass addresses, in the order of the dict. *)
Definition recipients (exclude : option string)
    (snapshot : list (string * WebSocket)) : list (string * WebSocket) :=
  filter (fun kv => not_excluded (fst kv) exclude) snapshot.

Definition pass_events (cl : list WebSocket) (message : json)
    (exclude : option string) (snapshot : list (string * WebSocket))
  : list event :=
  map (fun kv => send_event cl (snd kv) message) (recipients exclude snapshot).

Definition pass_failed (cl : list WebSocket) (exclude : option string)
    (snapshot : list (string * WebSocket)) : list string :=
  map fst (filter (fun kv => negb (can_send cl (snd kv)))
             (recipients exclude snapshot)).

(** The state after [ws.close(code=1000)] with its error swallowed. *)
Definition close_effect (ws : WebSocket) (s : state) : state :=
  if close_raises ws then record (EvCloseFailed ws) s
  else record (EvClosed ws) (add_closed ws s).

(** The state after the locked block of [disconnect]. *)
Definition removed (client_id : string) (s : state) : state :=
  match dict_get (active_connections s) client_id with
  | None => s
  | Some ws =>
      record (EvDel client_id)
        (set_connections (dict_del (active_connections s) client_id)
           (close_effect ws s))
  end.

Definition registered (s : state) (client_id : string) : bool :=
  dict_contains (active_connections s) client_id.

(** The dict [d'] is [d] less the entries of some keys. *)
Definition sub_registry (d d' : list (string * WebSocket)) : Prop :=
  exists keep : string -> bool, d' = filter (fun kv => keep (fst kv)) d.

(** The registry of [s'] is the one of [s] less some identifiers. *)
Definition shrinks (s s' : state) : Prop :=
  sub_registry (active_connections s) (active_connections s').

Definition event_message (e : event) : option json :=
  match e with
  | EvSent _ m => Some m
  | EvSendFailed _ m => Some m
  | _ => None
  end.

(** Between [s] and [s'], [events] holds the removal of [client_id]
    directly followed by the pass that broadcasts its [user_left], with
    their number, to the clients that remain at that time: [remaining] is
    the registry of [s] less some entries, [client_id] among them, and
    still holds every entry of the registry of [s']. *)
Definition announced (client_id : string) (s s' : state)
    (events : list event) : Prop :=
  exists before after cl remaining,
    events =
      before ++ EvDel client_id ::
      pass_events cl (user_left_msg client_id (length remaining)) None
        remaining ++ after
    /\ dict_contains remaining client_id = false
    /\ sub_registry (active_connections s) remaining
    /\ sub_registry remaining (active_connections s').

(** The events of the locked block of [disconnect]. *)
Definition removal_events (client_id : string) (s : state) : list event :=
  match dict_get (active_connections s) client_id with
  | None => []
  | Some ws =>
      [if close_raises ws then EvCloseFailed ws else EvClosed ws;
       EvDel client_id]
  end.

(** Every message in [events] is a [user_left] about a client that is
    registered in [s] or listed in [subjects]. *)
Definition user_left_about (subjects : list string) (s : state)
    (events : list event) : Prop :=
  forall e m, In e events -> event_message e = Some m ->
    exists d n, m = user_left_msg d n
                /\ (registered s d = true \/ In d subjects).

(** What a cascade of disconnections adds to the trace: notices of
    departure only, and one for every client that it removes. *)
Definition cascade_events (subjects : list string) (s s' : state)
    (delta : list event) : Prop :=
  trace s' = trace s ++ delta
  /\ user_left_about subjects s delta
  /\ forall f, registered s f = true -> registered s' f = false ->
               announced f s s' delta.

Definition cascade_trace (subjects : list string) (s s' : state) : Prop :=
  exists delta, cascade_events subjects s s' delta.

Definition each_post (disconnected : list string) (s s' : state) : Prop :=
  lock s' = false /\ shrinks s s'
  /\ (forall d, In d disconnected -> registered s' d = false)
  /\ cascade_trace disconnected s s'.

(** The state of [disconnect] once its locked block and the pass of its
    broadcast are done, and the clients that pass failed to reach. *)
Definition after_pass (client_id : string) (s : state) : state :=
  let s1 := removed client_id s in
  append_trace
    (pass_events (closed s1)
       (user_left_msg client_id (length (active_connections s1))) None
       (active_connections s1)) s1.

Definition disconnect_failed (client_id : string) (s : state)
  : list string :=
  let s1 := removed client_id s in
  pass_failed (closed s1) None (active_connections s1).

Definition disconnect_post (client_id : string) (s s' : state) : Prop :=
  each_post (disconnect_failed client_id s) (after_pass client_id s) s'.

(** The calls of [disconnect_ n] whose bound suffices. *)
Definition returns_below (n : nat) : Prop :=
  forall c s,
    lock s = false ->
    2 * length (active_connections s)
      + (if registered s c then 0 else 1) < n ->
    exists s', disconnect_ n c s = Return tt s' /\ disconnect_post c s s'.

(** The state of [connect] once the record is installed and the
    acknowledgement attempted. *)
Definition admitted (websocket : WebSocket) (client_id : string) (s : state)
  : state :=
  append_trace
    [EvAccept websocket; EvSet client_id websocket;
     send_event (closed s) websocket (connected_msg client_id)]
    (set_connections (dict_set (active_connections s) client_id websocket) s).

(** The routed message types, each with the field that carries its
    payload. *)
Definition routed : list (string * string) :=
  [("offer", "offer"); ("answer", "answer"); ("ice_candidate", "candidate")].

(** [data.get(key)] on the fields of a dict. *)
Definition field_or_null (fields : list (string * json)) (key : string)
  : json :=
  match dict_get fields key with
  | Some v => v
  | None => JNull
  end.

(** The message the router forwards. *)
Definition forwarded (kind field : string) (payload : json)
    (sender : string) : json :=
  JObj [("type", JStr kind); (field, payload); ("sender", JStr sender)].

(** The branch of [handle_message] for a routed type. *)
Definition forward (kind field : string) (client_id : string)
    (data : json) : M unit :=
  target <- data_get data "target" ;;
  ok <- target_registered target ;;
  if (ok : bool) then
    payload <- data_get data field ;;
    send_to (target_id_of target) (forwarded kind field payload client_id) ;;;
    ret tt
  else ret tt.

Definition sender_of (message : json) : option json :=
  match message with
  | JObj fields => dict_get fields "sender"
  | _ => None
  end.

(** The events a coroutine started in [s] added to the trace. *)
Definition emitted {A} (o : outcome A) (s : state) : list event :=
  skipn (length (trace s)) (trace (final_state o)).

(** The identifiers in the registry: [list(active_connections.keys())]. *)
Definition ListIDs (s : state) : list string :=
  dict_keys (active_connections s).

(** Two received elements that differ at most in the [client_id] of the
    body. *)
Definition same_but_client_id (r1 r2 : received) : Prop :=
  match r1, r2 with
  | RecvJson data1, RecvJson data2 =>
      forall k, k <> "client_id" -> json_get data1 k = json_get data2 k
  | RecvRaises, RecvRaises => True
  | _, _ => False
  end.

(** ** Sample rooms *)

Definition ws_alice : WebSocket := mkWebSocket 1 false false false.
Definition ws_bob : WebSocket := mkWebSocket 2 false false false.
Definition ws_carol : WebSocket := mkWebSocket 3 false false false.
(** Sockets whose peer is gone: every send on them raises. *)
Definition ws_dead : WebSocket := mkWebSocket 4 false true false.
Definition ws_gone : WebSocket := mkWebSocket 5 false true false.

Definition room_bob : state := mkState [("B", ws_bob)] false [] [].

Definition room_alice_bob : state :=
  mkState [("A", ws_alice); ("B", ws_bob)] false [] [].

Definition room_with_dead : state :=
  mkState [("A", ws_alice); ("D", ws_dead); ("B", ws_bob)] false [] [].

Definition room_alice_gone : state :=
  mkState [("A", ws_alice); ("G", ws_gone)] false [] [].

(** Inbound bodies used in the examples. *)
Definition get_users_body : list (string * json) :=
  [("type", JStr "get_users"); ("client_id", JStr "D")].

Definition offer_body (claimed target : string) : list (string * json) :=
  [("type", JStr "offer"); ("client_id", JStr claimed);
   ("target", JStr target); ("offer", JStr "sdp")].

(** ** Sequences of registry operations *)

Inductive operation : Type :=
| Connect (websocket : WebSocket) (client_id : string)
| Disconnect (client_id : string).

Definition apply_operation (s : state) (op : operation) : state :=
  match op with
  | Connect websocket client_id => final_state (connect websocket client_id s)
  | Disconnect client_id => final_state (disconnect client_id s)
  end.

Definition run (ops : list operation) (s : state) : state :=
  fold_left apply_operation ops s.

(** The specification's set: the identifiers connected by [ops] and not
    disconnected by a later operation of [ops]. *)
Definition connected_not_disconnected (ops : list operation) (id : string)
  : Prop :=
  exists before ws after,
    ops = before ++ Connect ws id :: after /\ ~ In (Disconnect id) after.

(** A transport call that raised on the way of a registration or of a
    delivery. *)
Definition is_failure (e : event) : bool :=
  match e with
  | EvAcceptFailed _ => true
  | EvSendFailed _ _ => true
  | _ => false
  end.

(** ** Vocabulary of the further properties *)

(** Every registered socket can be sent to. *)
Definition all_reachable (s : state) : Prop :=
  Forall (fun kv => can_send (closed s) (snd kv) = true)
    (active_connections s).

(** The identifiers whose registered socket cannot be sent to. *)
Definition unreachable (s : state) : list string :=
  pass_failed (closed s) None (active_connections s).

(** The message types [handle_message] knows. *)
Definition known_types : list string :=
  ["get_users"; "offer"; "answer"; "ice_candidate"].

(** A [target] that cannot be hashed: a list or a dict that is not
    empty. *)
Definition target_unhashable (target : json) : bool :=
  match target with
  | JList (_ :: _) => true
  | JObj (_ :: _) => true
  | _ => false
  end.

(** ** Dictionaries *)

Lemma ws_eqb_eq (a b : WebSocket) : ws_eqb a b = true <-> a = b.
Proof.
  destruct a as [i1 a1 s1 c1], b as [i2 a2 s2 c2]; unfold ws_eqb; simpl.
  rewrite !andb_true_iff, Nat.eqb_eq, !Bool.eqb_true_iff.
  split.
  - intros [[[-> ->] ->] ->]; reflexivity.
  - intros H; injection H as -> -> -> ->; auto.
Qed.

Lemma ws_eqb_refl (a : WebSocket) : ws_eqb a a = true.
Proof. apply ws_eqb_eq; reflexivity. Qed.

Section DictFacts.
Variable V : Type.
Implicit Types (d : list (string * V)) (k : string) (v : V).

Lemma dict_contains_keys d k :
  dict_contains d k = true <-> In k (dict_keys d).
Proof.
  unfold dict_contains.
  induction d as [|[k' v'] d IH]; simpl.
  - split; [discriminate | tauto].
  - destruct (String.eqb_spec k' k) as [->|Hne].
    + split; auto.
    + rewrite IH. split; [auto | intros [H|H]; [contradiction | exact H]].
Qed.

Lemma dict_contains_false d k :
  dict_contains d k = false <-> ~ In k (dict_keys d).
Proof.
  rewrite <- dict_contains_keys.
  destruct (dict_contains d k); split; intros; congruence.
Qed.

Lemma dict_get_In d k v : dict_get d k = Some v -> In (k, v) d.
Proof.
  induction d as [|[k' v'] d IH]; simpl; [discriminate|].
  destruct (String.eqb_spec k' k) as [->|Hne].
  - intros [= ->]; auto.
  - auto.
Qed.

Lemma dict_keys_filter (f : string -> bool) d :
  dict_keys (filter (fun kv => f (fst kv)) d) = filter f (dict_keys d).
Proof.
  unfold dict_keys.
  induction d as [|[k' v'] d IH]; simpl; [reflexivity|].
  destruct (f k'); simpl; rewrite IH; reflexivity.
Qed.

Lemma dict_keys_del d k :
  dict_keys (dict_del d k) =
  filter (fun k' => negb (String.eqb k' k)) (dict_keys d).
Proof. apply (dict_keys_filter (fun k' => negb (String.eqb k' k))). Qed.

Lemma dict_del_contains d k k' :
  dict_contains (dict_del d k) k' =
  negb (String.eqb k' k) && dict_contains d k'.
Proof.
  unfold dict_contains, dict_del.
  induction d as [|[k0 v0] d IH]; simpl.
  - rewrite andb_false_r; reflexivity.
  - destruct (String.eqb_spec k0 k) as [->|Hne]; simpl.
    + destruct (String.eqb_spec k k') as [->|Hne'].
      * rewrite String.eqb_refl; simpl. rewrite IH, String.eqb_refl.
        reflexivity.
      * exact IH.
    + destruct (String.eqb_spec k0 k') as [->|Hne'].
      * destruct (String.eqb_spec k' k); [contradiction | reflexivity].
      * exact IH.
Qed.

Lemma dict_del_absent d k : dict_contains d k = false -> dict_del d k = d.
Proof.
  unfold dict_contains, dict_del.
  induction d as [|[k0 v0] d IH]; simpl; [reflexivity|].
  destruct (String.eqb_spec k0 k) as [->|Hne]; [discriminate|].
  simpl. intros H. rewrite IH by exact H. reflexivity.
Qed.

Lemma dict_keys_set d k v :
  dict_keys (dict_set d k v) =
  if dict_contains d k then dict_keys d else dict_keys d ++ [k].
Proof.
  unfold dict_contains, dict_keys.
  induction d as [|[k0 v0] d IH]; simpl; [reflexivity|].
  destruct (String.eqb_spec k0 k) as [->|Hne]; simpl; [reflexivity|].
  rewrite IH. destruct (dict_get d k); reflexivity.
Qed.

Lemma dict_get_set d k v k' :
  dict_get (dict_set d k v) k' =
  if String.eqb k k' then Some v else dict_get d k'.
Proof.
  induction d as [|[k0 v0] d IH]; simpl.
  - reflexivity.
  - destruct (String.eqb_spec k0 k) as [->|Hne]; simpl.
    + destruct (String.eqb k k'); reflexivity.
    + rewrite IH. destruct (String.eqb_spec k0 k') as [->|Hne'].
      * destruct (String.eqb_spec k k'); [congruence | reflexivity].
      * reflexivity.
Qed.

Lemma filter_length_le (f : string * V -> bool) d :
  length (filter f d) <= length d.
Proof.
  induction d as [|kv d IH]; simpl; [lia|].
  destruct (f kv); simpl; lia.
Qed.

Lemma filter_drops (f : string -> bool) d k :
  dict_contains d k = true ->
  dict_contains (filter (fun kv => f (fst kv)) d) k = false ->
  length (filter (fun kv => f (fst kv)) d) < length d.
Proof.
  unfold dict_contains.
  induction d as [|[k0 v0] d IH]; simpl; [discriminate|].
  destruct (f k0) eqn:Hf; simpl.
  - destruct (String.eqb_spec k0 k) as [->|Hne]; [discriminate|].
    intros H1 H2. specialize (IH H1 H2). lia.
  - intros _ _.
    pose proof (filter_length_le (fun kv => f (fst kv)) d). lia.
Qed.
End DictFacts.

Arguments dict_contains_keys {V} d k.
Arguments dict_contains_false {V} d k.
Arguments dict_get_In {V} d k v.
Arguments dict_keys_filter {V} f d.
Arguments dict_keys_del {V} d k.
Arguments dict_del_contains {V} d k k'.
Arguments dict_del_absent {V} d k.
Arguments dict_keys_set {V} d k v.
Arguments dict_get_set {V} d k v k'.
Arguments filter_length_le {V} f d.
Arguments filter_drops {V} f d k.

(** ** Equations of the primitives *)

Lemma append_trace_nil s : append_trace [] s = s.
Proof. destruct s; unfold append_trace; simpl. rewrite app_nil_r; reflexivity. Qed.

Lemma append_trace_app e1 e2 s :
  append_trace e2 (append_trace e1 s) = append_trace (e1 ++ e2) s.
Proof. unfold append_trace; simpl. rewrite app_assoc; reflexivity. Qed.

Lemma record_append e s : record e s = append_trace [e] s.
Proof. reflexivity. Qed.

Lemma send_json_eq ws m s :
  send_json ws m s =
  if can_send (closed s) ws then Return tt (append_trace [EvSent ws m] s)
  else Raise (append_trace [EvSendFailed ws m] s).
Proof. reflexivity. Qed.

Lemma safe_send_json_eq ws m s :
  _safe_send_json ws m s =
  Return (can_send (closed s) ws)
    (append_trace [send_event (closed s) ws m] s).
Proof.
  unfold _safe_send_json, try_except, bind, send_json, send_event, ret.
  destruct (can_send (closed s) ws); reflexivity.
Qed.

Lemma broadcast_pass_eq m ex snapshot :
  forall d s,
    broadcast_pass m ex snapshot d s =
    Return (d ++ pass_failed (closed s) ex snapshot)
      (append_trace (pass_events (closed s) m ex snapshot) s).
Proof.
  induction snapshot as [|[cid ws] rest IH]; intros d s; simpl.
  - unfold ret, pass_failed, pass_events; simpl.
    rewrite app_nil_r, append_trace_nil; reflexivity.
  - unfold pass_failed, pass_events, recipients in *; simpl.
    destruct (not_excluded cid ex); simpl.
    + unfold bind at 1, try_except, bind, send_json, ret, send_event.
      destruct (can_send (closed s) ws) eqn:Hc; simpl; rewrite IH; simpl;
        rewrite ?record_append, append_trace_app; simpl; try reflexivity.
      rewrite <- app_assoc; reflexivity.
    + apply IH.
Qed.

Lemma set_lock_append b evs s :
  set_lock b (append_trace evs s) = append_trace evs (set_lock b s).
Proof. reflexivity. Qed.

Lemma set_lock_idle s : lock s = false -> set_lock false (set_lock true s) = s.
Proof. destruct s; simpl; intros ->; reflexivity. Qed.

Lemma broadcast_with_eq disc m ex s :
  lock s = false ->
  broadcast_with disc m ex s =
  disconnect_each disc (pass_failed (closed s) ex (active_connections s))
    (append_trace (pass_events (closed s) m ex (active_connections s)) s).
Proof.
  intros Hl. unfold broadcast_with, bind at 1, with_lock. rewrite Hl.
  unfold bind, items. rewrite broadcast_pass_eq. simpl.
  rewrite set_lock_append, set_lock_idle by exact Hl. reflexivity.
Qed.

Lemma broadcast_with_blocked disc m ex s :
  lock s = true -> broadcast_with disc m ex s = Blocked s.
Proof.
  intros Hl. unfold broadcast_with, bind, with_lock. rewrite Hl. reflexivity.
Qed.

Lemma disconnect_locked_eq c s :
  lock s = false -> disconnect_locked c s = Return tt (removed c s).
Proof.
  intros Hl. unfold disconnect_locked, with_lock. rewrite Hl.
  unfold bind at 1, contains, removed, dict_contains. simpl.
  destruct (dict_get (active_connections s) c) as [ws|] eqn:Hg.
  - unfold try_finally, try_except, bind, getitem, close, close_effect,
      contains, dict_contains, delitem, ret; simpl.
    rewrite Hg. destruct (close_raises ws); simpl; rewrite Hg; simpl;
      destruct s; simpl in *; subst; reflexivity.
  - unfold ret. rewrite set_lock_idle by exact Hl. reflexivity.
Qed.

Lemma disconnect_locked_blocked c s :
  lock s = true -> disconnect_locked c s = Blocked s.
Proof. intros Hl. unfold disconnect_locked, with_lock. rewrite Hl. reflexivity. Qed.

Lemma disconnect_step n c s :
  lock s = false ->
  disconnect_ (S n) c s =
  broadcast_with (disconnect_ n)
    (user_left_msg c (length (active_connections (removed c s)))) None
    (removed c s).
Proof.
  intros Hl. simpl. unfold bind at 1. rewrite disconnect_locked_eq by exact Hl.
  reflexivity.
Qed.

Lemma removed_lock c s : lock (removed c s) = lock s.
Proof.
  unfold removed. destruct (dict_get _ _); [|reflexivity].
  unfold close_effect. destruct (close_raises w); reflexivity.
Qed.

Lemma removed_connections c s :
  active_connections (removed c s) = dict_del (active_connections s) c.
Proof.
  unfold removed. destruct (dict_get _ _) eqn:Hg.
  - unfold close_effect. destruct (close_raises w); reflexivity.
  - symmetry. apply dict_del_absent. unfold dict_contains. rewrite Hg. reflexivity.
Qed.

(** ** The cascade of disconnections *)

Lemma sub_registry_refl d : sub_registry d d.
Proof.
  exists (fun _ => true). induction d as [|kv d IH];
    simpl; [reflexivity | rewrite <- IH; reflexivity].
Qed.

Lemma shrinks_refl s : shrinks s s.
Proof. apply sub_registry_refl. Qed.

Lemma filter_filter (A : Type) (f g : A -> bool) (l : list A) :
  filter f (filter g l) = filter (fun x => g x && f x) l.
Proof.
  induction l as [|x l IH]; simpl; [reflexivity|].
  destruct (g x); simpl; [destruct (f x)|]; rewrite IH; reflexivity.
Qed.

Lemma sub_registry_trans d1 d2 d3 :
  sub_registry d1 d2 -> sub_registry d2 d3 -> sub_registry d1 d3.
Proof.
  intros [f Hf] [g Hg]. exists (fun k => f k && g k).
  rewrite Hg, Hf. apply filter_filter.
Qed.

Lemma shrinks_trans s1 s2 s3 : shrinks s1 s2 -> shrinks s2 s3 -> shrinks s1 s3.
Proof. apply sub_registry_trans. Qed.

Lemma shrinks_same s s' :
  active_connections s' = active_connections s -> shrinks s s'.
Proof.
  intros H. destruct (shrinks_refl s) as [f Hf]. exists f. congruence.
Qed.

Lemma shrinks_removed c s : shrinks s (removed c s).
Proof.
  exists (fun k => negb (String.eqb k c)). apply removed_connections.
Qed.

Lemma shrinks_length s s' :
  shrinks s s' ->
  length (active_connections s') <= length (active_connections s).
Proof. intros [f ->]. apply filter_length_le. Qed.

Lemma shrinks_registered s s' k :
  shrinks s s' -> registered s' k = true -> registered s k = true.
Proof.
  intros [f Hf]. unfold registered. rewrite Hf, !dict_contains_keys.
  rewrite (dict_keys_filter f), filter_In. tauto.
Qed.

Lemma shrinks_unregistered s s' k :
  shrinks s s' -> registered s k = false -> registered s' k = false.
Proof.
  intros Hs Hk. destruct (registered s' k) eqn:E; [|reflexivity].
  rewrite (shrinks_registered _ _ _ Hs E) in Hk. discriminate.
Qed.

Lemma shrinks_drop s s' k :
  shrinks s s' -> registered s k = true -> registered s' k = false ->
  length (active_connections s') < length (active_connections s).
Proof.
  intros [f Hf]. unfold registered. rewrite Hf. apply filter_drops.
Qed.

Lemma removed_unregisters c s : registered (removed c s) c = false.
Proof.
  unfold registered. rewrite removed_connections, dict_del_contains.
  rewrite String.eqb_refl. reflexivity.
Qed.

Lemma removed_other c s k :
  k <> c -> registered (removed c s) k = registered s k.
Proof.
  intros Hne. unfold registered.
  rewrite removed_connections, dict_del_contains.
  destruct (String.eqb_spec k c); [contradiction | reflexivity].
Qed.

Lemma removed_trace c s :
  trace (removed c s) = trace s ++ removal_events c s.
Proof.
  unfold removed, removal_events.
  destruct (dict_get _ _) as [ws|]; [|rewrite app_nil_r; reflexivity].
  unfold close_effect. destruct (close_raises ws); simpl;
    rewrite <- app_assoc; reflexivity.
Qed.

Lemma pass_failed_registered cl ex snapshot d :
  In d (pass_failed cl ex snapshot) -> dict_contains snapshot d = true.
Proof.
  unfold pass_failed, recipients. rewrite in_map_iff.
  intros [[k w] [<- H]]. rewrite !filter_In in H. destruct H as [[H _] _].
  apply dict_contains_keys. unfold dict_keys.
  apply in_map_iff. exists (k, w). auto.
Qed.

Lemma user_left_about_app X s e1 e2 :
  user_left_about X s e1 -> user_left_about X s e2 ->
  user_left_about X s (e1 ++ e2).
Proof.
  intros H1 H2 e m Hin. apply in_app_or in Hin. destruct Hin; eauto.
Qed.

Lemma user_left_about_weaken X Y s1 s2 events :
  (forall d, registered s2 d = true \/ In d X ->
             registered s1 d = true \/ In d Y) ->
  user_left_about X s2 events -> user_left_about Y s1 events.
Proof.
  intros Hw H e m Hin Hm. destruct (H e m Hin Hm) as (d & n & -> & Hd).
  exists d, n. auto.
Qed.

Lemma user_left_about_pass X s cl c n ex snapshot :
  In c X ->
  user_left_about X s (pass_events cl (user_left_msg c n) ex snapshot).
Proof.
  intros Hc e m Hin. unfold pass_events in Hin. apply in_map_iff in Hin.
  destruct Hin as [kv [<- _]]. unfold send_event.
  destruct (can_send cl (snd kv)); simpl; intros [= <-]; exists c, n; auto.
Qed.

Lemma user_left_about_removal X s' c s :
  user_left_about X s' (removal_events c s).
Proof.
  intros e m Hin. unfold removal_events in Hin.
  destruct (dict_get _ _) as [ws|]; simpl in Hin; [|contradiction].
  destruct Hin as [<-|[<-|[]]]; [destruct (close_raises ws)|]; discriminate.
Qed.

Lemma announced_app_l f s1 s2 s3 e1 e2 :
  shrinks s2 s3 -> announced f s1 s2 e1 -> announced f s1 s3 (e1 ++ e2).
Proof.
  intros Hs (b & a & cl & r & -> & Hr & H1 & H2).
  exists b, (a ++ e2), cl, r. repeat split.
  - rewrite <- !app_assoc. simpl. rewrite <- app_assoc. reflexivity.
  - exact Hr.
  - exact H1.
  - eapply sub_registry_trans; [exact H2 | exact Hs].
Qed.

Lemma announced_app_r f s1 s2 s3 e1 e2 :
  shrinks s1 s2 -> announced f s2 s3 e2 -> announced f s1 s3 (e1 ++ e2).
Proof.
  intros Hs (b & a & cl & r & -> & Hr & H1 & H2).
  exists (e1 ++ b), a, cl, r. repeat split.
  - rewrite <- !app_assoc. reflexivity.
  - exact Hr.
  - eapply sub_registry_trans; [exact Hs | exact H1].
  - exact H2.
Qed.

Lemma cascade_trace_refl X s : cascade_trace X s s.
Proof.
  exists []. unfold cascade_events. rewrite app_nil_r. repeat split.
  - intros e m [].
  - intros f H1 H2. congruence.
Qed.

Lemma cascade_trace_trans X Y s1 s2 s3 :
  shrinks s1 s2 -> shrinks s2 s3 ->
  cascade_trace X s1 s2 -> cascade_trace Y s2 s3 ->
  cascade_trace (X ++ Y) s1 s3.
Proof.
  intros Hs Hs' (d1 & Ht1 & Hu1 & Ha1) (d2 & Ht2 & Hu2 & Ha2).
  exists (d1 ++ d2). repeat split.
  - rewrite Ht2, Ht1, app_assoc. reflexivity.
  - apply user_left_about_app.
    + eapply user_left_about_weaken; [|exact Hu1].
      intros d [H|H]; [left; exact H | right; apply in_or_app; auto].
    + eapply user_left_about_weaken; [|exact Hu2].
      intros d [H|H]; [left; eapply shrinks_registered; eauto
                      | right; apply in_or_app; auto].
  - intros f Hf1 Hf3. destruct (registered s2 f) eqn:Hf2.
    + apply announced_app_r with (s2 := s2); auto.
    + apply announced_app_l with (s2 := s2); auto.
Qed.

Lemma cascade_events_step c s s' D delta :
  lock s = false ->
  shrinks (after_pass c s) s' ->
  (forall d, In d D -> registered (removed c s) d = true) ->
  cascade_events D (after_pass c s) s' delta ->
  cascade_events [c] s s'
    (removal_events c s ++
     pass_events (closed (removed c s))
       (user_left_msg c (length (active_connections (removed c s))))
       None (active_connections (removed c s)) ++ delta).
Proof.
  intros Hl Hs' HD (Ht & Hu & Ha). unfold after_pass in *.
  set (s1 := removed c s) in *.
  set (evs := pass_events _ _ _ _) in *.
  repeat split.
  - rewrite Ht. simpl. subst s1. rewrite removed_trace, <- !app_assoc.
    reflexivity.
  - apply user_left_about_app; [apply user_left_about_removal|].
    apply user_left_about_app;
      [apply user_left_about_pass; left; reflexivity|].
    eapply user_left_about_weaken; [|exact Hu].
    intros d [H|H]; left.
    + apply (shrinks_registered s s1 d (shrinks_removed c s)). exact H.
    + apply (shrinks_registered s s1 d (shrinks_removed c s)). auto.
  - intros f Hf Hf'. destruct (String.eqb_spec f c) as [->|Hne].
    + unfold removal_events. unfold registered, dict_contains in Hf.
      destruct (dict_get (active_connections s) c) as [ws|]; [|discriminate].
      exists [if close_raises ws then EvCloseFailed ws else EvClosed ws],
        delta, (closed s1), (active_connections s1).
      repeat split.
      * apply removed_unregisters.
      * apply (shrinks_removed c s).
      * exact Hs'.
    + apply announced_app_r with (s2 := s); [apply shrinks_refl|].
      apply announced_app_r with (s2 := append_trace evs s1);
        [apply (shrinks_removed c s)|].
      apply Ha; [|exact Hf'].
      unfold registered; simpl. fold (registered s1 f). subst s1.
      rewrite removed_other by exact Hne. exact Hf.
Qed.

Lemma disconnect_post_summary c s s' :
  lock s = false -> disconnect_post c s s' ->
  lock s' = false /\ shrinks s s' /\ registered s' c = false
  /\ cascade_trace [c] s s'.
Proof.
  intros Hl (Hl' & Hs' & Hd' & [delta Hc']).
  assert (Hs : shrinks s (after_pass c s)).
  { eapply shrinks_trans; [apply (shrinks_removed c s)|].
    apply shrinks_same. reflexivity. }
  repeat split.
  - exact Hl'.
  - eapply shrinks_trans; eassumption.
  - eapply shrinks_unregistered; [exact Hs'|].
    unfold registered, after_pass; simpl. apply removed_unregisters.
  - eexists. apply cascade_events_step with (D := disconnect_failed c s);
      [exact Hl|exact Hs'| |exact Hc'].
    intros d Hin. apply pass_failed_registered in Hin. exact Hin.
Qed.

Lemma disconnect_each_returns n :
  returns_below n ->
  forall D s,
    lock s = false ->
    (2 * length (active_connections s) + 1 < n
     \/ (2 * length (active_connections s) < n
         /\ match D with d :: _ => registered s d = true | [] => True end)) ->
    exists s',
      disconnect_each (disconnect_ n) D s = Return tt s' /\ each_post D s s'.
Proof.
  intros IH D. induction D as [|d D IHD]; intros s Hl Hm.
  - exists s. split; [reflexivity|].
    repeat split; auto using shrinks_refl, cascade_trace_refl.
    intros d [].
  - destruct (IH d s Hl) as (s1 & E1 & Hp1).
    { destruct Hm as [Hm|[Hm Hd]]; [destruct (registered s d); lia|].
      rewrite Hd. lia. }
    destruct (disconnect_post_summary d s s1 Hl Hp1)
      as (Hl1 & Hs1 & Hd1 & Hc1).
    assert (Hm1 : 2 * length (active_connections s1) + 1 < n).
    { destruct Hm as [Hm|[Hm Hd]].
      - pose proof (shrinks_length _ _ Hs1). lia.
      - pose proof (shrinks_drop _ _ _ Hs1 Hd Hd1). lia. }
    destruct (IHD s1 Hl1 (or_introl Hm1)) as (s' & E' & Hl' & Hs' & Hd' & Hc').
    exists s'. split.
    + simpl. unfold bind. rewrite E1. exact E'.
    + repeat split; eauto using shrinks_trans.
      * intros x [<-|Hx]; [eapply shrinks_unregistered; eauto | auto].
      * apply (cascade_trace_trans [d] D s s1 s'); assumption.
Qed.

Lemma disconnect_returns_below : forall n, returns_below n.
Proof.
  induction n as [|n IH]; intros c s Hl Hm; [lia|].
  rewrite disconnect_step by exact Hl.
  rewrite broadcast_with_eq by (rewrite removed_lock; exact Hl).
  apply (disconnect_each_returns n IH).
  - simpl. rewrite removed_lock. exact Hl.
  - simpl. destruct (registered s c) eqn:Hc.
    + left. pose proof (shrinks_drop _ _ _ (shrinks_removed c s) Hc
                          (removed_unregisters c s)). lia.
    + right. rewrite removed_connections, dict_del_absent by exact Hc.
      split; [lia|].
      destruct (pass_failed _ _ _) as [|d D'] eqn:ED; [exact I|].
      assert (Hin : In d (d :: D')) by (left; reflexivity).
      rewrite <- ED in Hin. apply pass_failed_registered in Hin.
      unfold registered; simpl.
      rewrite removed_connections, dict_del_absent by exact Hc. exact Hin.
Qed.

(** [disconnect] returns whenever the lock is free. *)
Lemma disconnect_returns c s :
  lock s = false ->
  exists s', disconnect c s = Return tt s' /\ disconnect_post c s s'.
Proof.
  intros Hl. apply disconnect_returns_below; [exact Hl|].
  unfold fuel_for. destruct (registered s c); lia.
Qed.

(** [broadcast] returns whenever the lock is free. *)
Lemma broadcast_returns m ex s :
  lock s = false ->
  exists s',
    broadcast m ex s = Return tt s'
    /\ each_post (pass_failed (closed s) ex (active_connections s))
         (append_trace (pass_events (closed s) m ex (active_connections s)) s)
         s'.
Proof.
  intros Hl. unfold broadcast. rewrite broadcast_with_eq by exact Hl.
  apply (disconnect_each_returns _ (disconnect_returns_below _)).
  - exact Hl.
  - left. simpl. unfold fuel_for. lia.
Qed.

(** ** Passes that reach everybody *)

Lemma recipients_none snapshot : recipients None snapshot = snapshot.
Proof.
  unfold recipients. induction snapshot as [|kv d IH]; simpl;
    [reflexivity | f_equal; exact IH].
Qed.

Lemma pass_failed_nil cl ex snapshot :
  Forall (fun kv => can_send cl (snd kv) = true) (recipients ex snapshot) ->
  pass_failed cl ex snapshot = [].
Proof.
  unfold pass_failed. induction 1 as [|kv l Hkv _ IH]; simpl;
    [reflexivity|]. rewrite Hkv. exact IH.
Qed.

Lemma app_eq_self (A : Type) (l delta : list A) :
  l = l ++ delta -> delta = [].
Proof.
  intros H. apply (app_inv_head l). rewrite app_nil_r. symmetry. exact H.
Qed.

Lemma disconnect_eq c s :
  lock s = false ->
  disconnect c s =
  disconnect_each (disconnect_ (2 * length (active_connections s) + 1))
    (disconnect_failed c s) (after_pass c s).
Proof.
  intros Hl. unfold disconnect, fuel_for.
  replace (2 * length (active_connections s) + 2)
    with (S (2 * length (active_connections s) + 1)) by lia.
  rewrite disconnect_step by exact Hl.
  rewrite broadcast_with_eq by (rewrite removed_lock; exact Hl).
  reflexivity.
Qed.


(** ** [connect] *)

Lemma broadcast_eq m ex s :
  lock s = false ->
  broadcast m ex s =
  disconnect_each (disconnect_ (fuel_for s))
    (pass_failed (closed s) ex (active_connections s))
    (append_trace (pass_events (closed s) m ex (active_connections s)) s).
Proof. intros Hl. unfold broadcast. apply broadcast_with_eq. exact Hl. Qed.

Lemma dict_keys_recipients c (d : list (string * WebSocket)) :
  dict_keys (recipients (Some c) d) =
  filter (fun cid => negb (String.eqb cid c)) (dict_keys d).
Proof. apply (dict_keys_filter (fun cid => negb (String.eqb cid c))). Qed.

Lemma connect_eq ws c s :
  accept_raises ws = false -> lock s = false ->
  connect ws c s =
  match recipients (Some c) (active_connections (admitted ws c s)) with
  | [] => Return tt (admitted ws c s)
  | _ :: _ =>
      broadcast
        (user_joined_msg c (length (active_connections (admitted ws c s))))
        (Some c) (admitted ws c s)
  end.
Proof.
  intros Ha Hl. unfold connect.
  unfold bind at 1, accept. rewrite Ha.
  unfold bind at 1, with_lock, setitem; simpl. rewrite Hl.
  unfold bind at 1. rewrite safe_send_json_eq; simpl.
  unfold bind at 1, get_other_clients; simpl.
  rewrite <- dict_keys_recipients.
  assert (Es : append_trace
                 [send_event (closed s) ws (connected_msg c)]
                 (set_lock false
                    (record (EvSet c ws)
                       (set_connections (dict_set (active_connections s) c ws)
                          (set_lock true (record (EvAccept ws) s)))))
               = admitted ws c s).
  { destruct s; unfold admitted, append_trace, record, set_lock,
      set_connections; simpl in *. subst. rewrite <- !app_assoc. reflexivity. }
  rewrite Es.
  destruct (recipients (Some c) (dict_set (active_connections s) c ws))
    as [|kv l]; reflexivity.
Qed.

Lemma connect_raises ws c s :
  accept_raises ws = true ->
  connect ws c s = Raise (append_trace [EvAcceptFailed ws] s).
Proof. intros Ha. unfold connect, bind, accept. rewrite Ha. reflexivity. Qed.

Lemma connect_returns ws c s :
  accept_raises ws = false -> lock s = false ->
  let s2 := admitted ws c s in
  let others := recipients (Some c) (active_connections s2) in
  let message := user_joined_msg c (length (active_connections s2)) in
  exists s' rest,
    connect ws c s = Return tt s'
    /\ lock s' = false
    /\ shrinks s2 s'
    /\ trace s' =
       trace s2
       ++ map (fun kv => send_event (closed s) (snd kv) message) others
       ++ rest
    /\ user_left_about [] s2 rest
    /\ (Forall (fun kv => can_send (closed s) (snd kv) = true) others ->
        rest = [] /\ active_connections s' = active_connections s2).
Proof.
  intros Ha Hl s2 others message.
  rewrite connect_eq by assumption. fold s2.
  assert (Eo : recipients (Some c) (active_connections s2) = others)
    by reflexivity.
  clearbody others. rewrite Eo.
  destruct others as [|kv l].
  - exists s2, []. repeat split; auto using shrinks_refl.
    + simpl. rewrite app_nil_r. reflexivity.
    + intros e m [].
  - assert (Hl2 : lock s2 = false) by exact Hl.
    destruct (broadcast_returns message (Some c) s2 Hl2)
      as (s' & E & Hl' & Hs' & Hd' & (rest & Ht & Hu & Han)).
    exists s', rest. fold message. repeat split.
    + exact E.
    + exact Hl'.
    + eapply shrinks_trans; [|exact Hs']. apply shrinks_same. reflexivity.
    + unfold pass_events in Ht. rewrite Eo in Ht. rewrite Ht. simpl.
      rewrite <- !app_assoc. reflexivity.
    + eapply user_left_about_weaken; [|exact Hu].
      intros d [H|H]; left; [exact H|].
      apply pass_failed_registered in H. exact H.
    + rewrite broadcast_eq in E by exact Hl2.
      rewrite pass_failed_nil in E by (rewrite Eo; exact H).
      simpl in E. injection E as <-. apply app_eq_self in Ht. exact Ht.
    + rewrite broadcast_eq in E by exact Hl2.
      rewrite pass_failed_nil in E by (rewrite Eo; exact H).
      simpl in E. injection E as <-. reflexivity.
Qed.

(** ** [send_to] and [handle_message] *)

Lemma disconnect_blocked c s : lock s = true -> disconnect c s = Blocked s.
Proof.
  intros Hl. unfold disconnect, fuel_for.
  replace (2 * length (active_connections s) + 2)
    with (S (2 * length (active_connections s) + 1)) by lia.
  simpl. unfold bind. rewrite disconnect_locked_blocked by exact Hl.
  reflexivity.
Qed.

Lemma send_to_eq t m s :
  send_to t m s =
  if lock s then Blocked s
  else
    match dict_get (active_connections s) t with
    | None => Return false s
    | Some ws =>
        if can_send (closed s) ws
        then Return true (append_trace [EvSent ws m] s)
        else Blocked (append_trace [EvSendFailed ws m] (set_lock true s))
    end.
Proof.
  unfold send_to, bind at 1, with_lock.
  destruct (lock s) eqn:Hl; [reflexivity|].
  unfold bind at 1, contains, dict_contains; simpl.
  destruct (dict_get (active_connections s) t) as [ws|] eqn:Hg.
  - unfold try_except, bind at 1, bind at 1, getitem; simpl. rewrite Hg.
    rewrite send_json_eq; simpl.
    destruct (can_send (closed s) ws); simpl.
    + unfold ret. rewrite set_lock_append, set_lock_idle by exact Hl.
      reflexivity.
    + unfold bind. rewrite disconnect_blocked by reflexivity. reflexivity.
  - unfold ret; simpl. rewrite set_lock_idle by exact Hl. reflexivity.
Qed.

Lemma handle_get_users ws c fields s :
  dict_get fields "type" = Some (JStr "get_users") ->
  handle_message ws c (JObj fields) s =
  Return tt
    (append_trace
       [send_event (closed s) ws
          (users_list_msg (dict_keys (active_connections s)))] s).
Proof.
  intros Ht. unfold handle_message, bind at 1, data_get; simpl. rewrite Ht.
  simpl. unfold bind at 1, keys. unfold bind. rewrite safe_send_json_eq.
  reflexivity.
Qed.

Lemma handle_routed kind field ws c data s :
  In (kind, field) routed ->
  json_get data "type" = Some (JStr kind) ->
  handle_message ws c data s = forward kind field c data s.
Proof.
  intros Hin Ht. unfold handle_message, bind at 1, data_get. rewrite Ht.
  simpl in Hin.
  destruct Hin as [[= <- <-]|[[= <- <-]|[[= <- <-]|[]]]]; reflexivity.
Qed.

Lemma handle_other ws c data s t :
  json_get data "type" = Some t ->
  json_is_str t "get_users" = false ->
  (forall kind field, In (kind, field) routed -> json_is_str t kind = false) ->
  handle_message ws c data s = Return tt s.
Proof.
  intros Ht Hg Hr. unfold handle_message, bind at 1, data_get. rewrite Ht, Hg.
  rewrite (Hr "offer" "offer"), (Hr "answer" "answer"),
    (Hr "ice_candidate" "candidate"); simpl; auto.
Qed.

Lemma handle_not_dict ws c data s :
  json_get data "type" = None -> handle_message ws c data s = Raise s.
Proof.
  intros Ht. unfold handle_message, bind, data_get. rewrite Ht. reflexivity.
Qed.

Lemma forward_eq kind field c fields B s :
  dict_get fields "target" = Some (JStr B) -> B <> "" ->
  forward kind field c (JObj fields) s =
  match dict_get (active_connections s) B with
  | None => Return tt s
  | Some ws =>
      let message := forwarded kind field (field_or_null fields field) c in
      if lock s then Blocked s
      else if can_send (closed s) ws
      then Return tt (append_trace [EvSent ws message] s)
      else Blocked (append_trace [EvSendFailed ws message] (set_lock true s))
  end.
Proof.
  intros Ht HB. unfold forward, bind at 1, data_get; simpl. rewrite Ht.
  unfold bind at 1, target_registered; simpl.
  destruct (String.eqb_spec B "") as [->|_]; [contradiction|]; simpl.
  unfold dict_contains.
  destruct (dict_get (active_connections s) B) as [ws|] eqn:Hg;
    [|reflexivity].
  unfold bind at 1, field_or_null.
  destruct (dict_get fields field) as [v|]; unfold bind at 1;
    rewrite send_to_eq, Hg;
    (destruct (lock s); [reflexivity|]);
    destruct (can_send (closed s) ws); reflexivity.
Qed.

(** ** What the relay does not do on a failed send *)

(** [send_to] on a socket that cannot be sent to calls [disconnect] with
    the lock held, and waits for ever: the target stays registered and the
    lock stays taken. *)
Lemma send_to_failure_blocks t m s ws :
  lock s = false ->
  dict_get (active_connections s) t = Some ws ->
  can_send (closed s) ws = false ->
  send_to t m s = Blocked (append_trace [EvSendFailed ws m] (set_lock true s))
  /\ registered (final_state (send_to t m s)) t = true
  /\ lock (final_state (send_to t m s)) = true.
Proof.
  intros Hl Hg Hc. rewrite send_to_eq, Hl, Hg, Hc. simpl.
  repeat split. unfold registered, dict_contains. simpl. rewrite Hg.
  reflexivity.
Qed.

(** [disconnect] and [broadcast] never exhaust their bound. *)
Lemma disconnect_total c s :
  (exists s', disconnect c s = Return tt s') \/ disconnect c s = Blocked s.
Proof.
  destruct (lock s) eqn:Hl.
  - right. apply disconnect_blocked. exact Hl.
  - left. destruct (disconnect_returns c s Hl) as (s' & E & _). eauto.
Qed.

Lemma broadcast_total m ex s :
  (exists s', broadcast m ex s = Return tt s') \/ broadcast m ex s = Blocked s.
Proof.
  destruct (lock s) eqn:Hl.
  - right. unfold broadcast. apply broadcast_with_blocked. exact Hl.
  - left. destruct (broadcast_returns m ex s Hl) as (s' & E & _). eauto.
Qed.

(** C1 as stated fails on a direct reply: the [users_list] reply to a
    client whose socket cannot be sent to is attempted once, no removal
    and no [user_left] follows, and the client is still registered. *)
Lemma failed_reply_keeps_client :
  emitted (handle_message ws_dead "D" (JObj get_users_body) room_with_dead)
    room_with_dead
  = [EvSendFailed ws_dead (users_list_msg ["A"; "D"; "B"])]
  /\ registered
       (final_state
          (handle_message ws_dead "D" (JObj get_users_body) room_with_dead))
       "D" = true.
Proof. split; reflexivity. Qed.

(** ** The registry operations *)

(** What [disconnect] does, for the statements on it. *)
Lemma disconnect_outcome (c : string) (s : state) :
  lock s = false ->
  let remaining := dict_del (active_connections s) c in
  let message := user_left_msg c (length remaining) in
  exists s' rest,
    disconnect c s = Return tt s'
    /\ lock s' = false
    /\ shrinks (removed c s) s'
    /\ trace s' =
       trace s ++ removal_events c s
       ++ map (fun kv => send_event (closed (removed c s)) (snd kv) message)
            remaining
       ++ rest
    /\ (forall e m, In e rest -> event_message e = Some m ->
          exists d n, m = user_left_msg d n /\ d <> c)
    /\ (Forall (fun kv => can_send (closed (removed c s)) (snd kv) = true)
          remaining ->
        rest = [] /\ active_connections s' = remaining).
Proof.
  intros Hl remaining message.
  destruct (disconnect_returns c s Hl) as (s' & E & Hp).
  destruct Hp as (Hl' & Hs' & Hd' & (rest & Ht & Hu & Ha)).
  exists s', rest. repeat split.
  - exact E.
  - exact Hl'.
  - eapply shrinks_trans; [|exact Hs']. apply shrinks_same. reflexivity.
  - rewrite Ht. unfold after_pass, pass_events; simpl.
    rewrite removed_trace, recipients_none, removed_connections.
    rewrite <- !app_assoc. reflexivity.
  - intros e m Hin Hm. destruct (Hu e m Hin Hm) as (d & n & -> & Hd).
    exists d, n. split; [reflexivity|]. intros ->.
    assert (Hr : registered (after_pass c s) c = true).
    { destruct Hd as [Hd|Hd]; [exact Hd|].
      apply pass_failed_registered in Hd. exact Hd. }
    unfold registered, after_pass in Hr; simpl in Hr.
    fold (registered (removed c s) c) in Hr.
    rewrite removed_unregisters in Hr. discriminate.
  - rewrite disconnect_eq in E by exact Hl.
    unfold disconnect_failed in E. rewrite pass_failed_nil in E.
    + simpl in E. injection E as <-. apply app_eq_self in Ht. exact Ht.
    + rewrite recipients_none, removed_connections. exact H.
  - rewrite disconnect_eq in E by exact Hl.
    unfold disconnect_failed in E. rewrite pass_failed_nil in E.
    + simpl in E. injection E as <-. unfold after_pass; simpl.
      apply removed_connections.
    + rewrite recipients_none, removed_connections. exact H.
Qed.

(** C4: [disconnect], of a registered identifier or not, returns.  When
    the identifier is registered the socket is closed, an error of the
    close being swallowed, and the record removed ([removal_events]); in
    every case one [user_left] carrying the count after the removal is
    then sent to each remaining client.  What follows in the trace are
    the notices about the clients that this broadcast failed to reach,
    none of them about [c], and nothing follows when every remaining
    client can be reached.  The message is the object with [type]
    ["user_left"], the identifier as [client_id] and the number of
    remaining records as [users_online]. *)
Theorem disconnect_broadcasts_user_left (c : string) (s : state) :
  lock s = false ->
  let remaining := dict_del (active_connections s) c in
  let message := user_left_msg c (length remaining) in
  exists s' rest,
    disconnect c s = Return tt s'
    /\ trace s' =
       trace s ++ removal_events c s
       ++ map (fun kv => send_event (closed (removed c s)) (snd kv) message)
            remaining
       ++ rest
    /\ registered s' c = false
    /\ (forall e m, In e rest -> event_message e = Some m ->
          exists d n, m = user_left_msg d n /\ d <> c)
    /\ (Forall (fun kv => can_send (closed (removed c s)) (snd kv) = true)
          remaining ->
        rest = [] /\ active_connections s' = remaining)
    /\ message =
       JObj [("type", JStr "user_left");
             ("client_id", JStr c);
             ("users_online", JNum (Z.of_nat (length remaining)))].
Proof.
  intros Hl remaining message.
  destruct (disconnect_outcome c s Hl)
    as (s' & rest & E & Hl' & Hs & Ht & Hu & Hh).
  exists s', rest.
  split; [exact E|]. split; [exact Ht|].
  split; [eapply shrinks_unregistered;
          [exact Hs | apply removed_unregisters]|].
  split; [exact Hu|]. split; [exact Hh|].
  reflexivity.
Qed.

Lemma disconnect_broadcasts_user_left_witness :
  lock room_alice_bob = false
  /\ exists s',
       disconnect "A" room_alice_bob = Return tt s'
       /\ trace s' =
          [EvClosed ws_alice; EvDel "A";
           EvSent ws_bob
             (JObj [("type", JStr "user_left");
                    ("client_id", JStr "A");
                    ("users_online", JNum 1)])].
Proof.
  split; [reflexivity|].
  destruct (disconnect_broadcasts_user_left "A" room_alice_bob eq_refl)
    as (s' & rest & E & Ht & _ & _ & Hh & Hm).
  exists s'. split; [exact E|].
  destruct Hh as [-> _].
  - repeat constructor.
  - rewrite Hm in Ht. exact Ht.
Defined.

(** C3: [connect] on a socket that accepts returns.  It installs the
    record, sends one [connected] to the socket of the new client, then
    one [user_joined] carrying the size of the registry to every entry
    under another identifier, in the order of the registry, and to no
    entry under [c].  What follows are [user_left] notices about the
    clients this broadcast failed to reach; nothing follows, and the
    registry is the one with [c] installed, when every other client can be
    reached.  The acknowledgement is the object with [type] ["connected"]
    and the identifier as [client_id]; the announcement is the object with
    [type] ["user_joined"], the identifier as [client_id] and the size of
    the registry, the new record counted, as [users_online]. *)
Theorem connect_acknowledges_then_announces
    (ws : WebSocket) (c : string) (s : state) :
  accept_raises ws = false -> lock s = false ->
  let registry := dict_set (active_connections s) c ws in
  let others := recipients (Some c) registry in
  let joined := user_joined_msg c (length registry) in
  exists s' rest,
    connect ws c s = Return tt s'
    /\ trace s' =
       trace s
       ++ [EvAccept ws; EvSet c ws;
           send_event (closed s) ws (connected_msg c)]
       ++ map (fun kv => send_event (closed s) (snd kv) joined) others
       ++ rest
    /\ (forall k w, In (k, w) others <-> In (k, w) registry /\ k <> c)
    /\ (forall e m, In e rest -> event_message e = Some m ->
          exists d n, m = user_left_msg d n)
    /\ (Forall (fun kv => can_send (closed s) (snd kv) = true) others ->
        rest = [] /\ active_connections s' = registry)
    /\ connected_msg c =
       JObj [("type", JStr "connected");
             ("client_id", JStr c);
             ("message", JStr "Соединение установлено")]
    /\ joined =
       JObj [("type", JStr "user_joined");
             ("client_id", JStr c);
             ("users_online", JNum (Z.of_nat (length registry)))].
Proof.
  intros Ha Hl registry others joined.
  destruct (connect_returns ws c s Ha Hl)
    as (s' & rest & E & Hl' & Hs & Ht & Hu & Hh).
  exists s', rest.
  split; [exact E|].
  split; [rewrite Ht; simpl; rewrite <- !app_assoc; reflexivity|].
  split.
  { intros k w. split.
    - intros H. unfold others, recipients in H. apply filter_In in H.
      destruct H as [Hin H]. split; [exact Hin|]. simpl in H. intros ->.
      rewrite String.eqb_refl in H. discriminate.
    - intros [Hin Hne]. unfold others, recipients. apply filter_In.
      split; [exact Hin|]. simpl.
      destruct (String.eqb_spec k c); [contradiction | reflexivity]. }
  split.
  { intros e m Hin Hm. destruct (Hu e m Hin Hm) as (d & n & -> & _).
    exists d, n. reflexivity. }
  split; [exact Hh|]. split; reflexivity.
Qed.

Lemma connect_acknowledges_then_announces_witness :
  accept_raises ws_alice = false /\ lock room_bob = false
  /\ exists s',
       connect ws_alice "A" room_bob = Return tt s'
       /\ trace s' =
          [EvAccept ws_alice; EvSet "A" ws_alice;
           EvSent ws_alice
             (JObj [("type", JStr "connected");
                    ("client_id", JStr "A");
                    ("message", JStr "Соединение установлено")]);
           EvSent ws_bob
             (JObj [("type", JStr "user_joined");
                    ("client_id", JStr "A");
                    ("users_online", JNum 2)])]
       /\ active_connections s' = [("B", ws_bob); ("A", ws_alice)].
Proof.
  split; [reflexivity|]. split; [reflexivity|].
  destruct (connect_acknowledges_then_announces ws_alice "A" room_bob
              eq_refl eq_refl)
    as (s' & rest & E & Ht & _ & _ & Hh & Hc & Hj).
  exists s'. split; [exact E|].
  destruct Hh as [-> Hr].
  - repeat constructor.
  - split; [|exact Hr]. rewrite Hc, Hj in Ht. exact Ht.
Defined.

(** C10, as the code has it: when the socket accepts and the [connected]
    acknowledgement cannot be sent, [connect] returns all the same: the
    failure is recorded, no close and no removal follows it, and the
    [user_joined] pass over the other clients is made.  When those can be
    reached the record of [c] is in the registry at the end. *)
Theorem connect_survives_failed_welcome
    (ws : WebSocket) (c : string) (s : state) :
  accept_raises ws = false -> lock s = false ->
  can_send (closed s) ws = false ->
  let registry := dict_set (active_connections s) c ws in
  let others := recipients (Some c) registry in
  let joined := user_joined_msg c (length registry) in
  exists s' rest,
    connect ws c s = Return tt s'
    /\ trace s' =
       trace s
       ++ [EvAccept ws; EvSet c ws; EvSendFailed ws (connected_msg c)]
       ++ map (fun kv => send_event (closed s) (snd kv) joined) others
       ++ rest
    /\ (Forall (fun kv => can_send (closed s) (snd kv) = true) others ->
        rest = []
        /\ active_connections s' = registry
        /\ dict_get (active_connections s') c = Some ws).
Proof.
  intros Ha Hl Hc registry others joined.
  destruct (connect_returns ws c s Ha Hl)
    as (s' & rest & E & Hl' & Hs & Ht & Hu & Hh).
  exists s', rest. repeat split.
  - exact E.
  - rewrite Ht. simpl. unfold send_event. rewrite Hc.
    rewrite <- !app_assoc. reflexivity.
  - apply Hh; assumption.
  - apply Hh; assumption.
  - destruct (Hh H) as [_ ->]. simpl.
    rewrite dict_get_set, String.eqb_refl. reflexivity.
Qed.

Lemma connect_survives_failed_welcome_witness :
  accept_raises ws_dead = false /\ lock room_bob = false
  /\ can_send (closed room_bob) ws_dead = false
  /\ exists s',
       connect ws_dead "D" room_bob = Return tt s'
       /\ trace s' = [EvAccept ws_dead; EvSet "D" ws_dead;
                      EvSendFailed ws_dead (connected_msg "D");
                      EvSent ws_bob (user_joined_msg "D" 2)]
       /\ dict_get (active_connections s') "D" = Some ws_dead.
Proof.
  split; [reflexivity|]. split; [reflexivity|]. split; [reflexivity|].
  destruct (connect_survives_failed_welcome ws_dead "D" room_bob
              eq_refl eq_refl eq_refl)
    as (s' & rest & E & Ht & Hh).
  exists s'. split; [exact E|].
  destruct Hh as (-> & _ & Hg).
  - repeat constructor.
  - split; [exact Ht | exact Hg].
Defined.

(** C10 as stated fails when another client cannot be reached either:
    the [user_joined] broadcast removes that client, and the [user_left]
    that announces it fails in turn on the socket of the new client, which
    is removed too before [connect] returns. *)
Lemma newcomer_removed_by_cascade :
  accept_raises ws_dead = false
  /\ can_send (closed room_alice_gone) ws_dead = false
  /\ exists s',
       connect ws_dead "D" room_alice_gone = Return tt s'
       /\ active_connections s' = [("A", ws_alice)]
       /\ registered s' "D" = false
       /\ trace s' =
          [EvAccept ws_dead; EvSet "D" ws_dead;
           EvSendFailed ws_dead (connected_msg "D");
           EvSent ws_alice (user_joined_msg "D" 3);
           EvSendFailed ws_gone (user_joined_msg "D" 3);
           EvClosed ws_gone; EvDel "G";
           EvSent ws_alice (user_left_msg "G" 2);
           EvSendFailed ws_dead (user_left_msg "G" 2);
           EvClosed ws_dead; EvDel "D";
           EvSent ws_alice (user_left_msg "D" 1)].
Proof.
  split; [reflexivity|]. split; [reflexivity|].
  eexists. split; [reflexivity|]. repeat split.
Qed.

(** ** Failing deliveries in a broadcast *)

Lemma can_send_after_close cl ws w :
  can_send cl w = true -> can_send cl ws = false ->
  can_send (ws :: cl) w = true.
Proof.
  intros Hw Hws. unfold can_send, is_closed in *. simpl.
  destruct (ws_eqb w ws) eqn:E.
  - apply ws_eqb_eq in E. subst w. congruence.
  - exact Hw.
Qed.

Lemma removed_closed c s ws :
  dict_get (active_connections s) c = Some ws ->
  closed (removed c s) = if close_raises ws then closed s else ws :: closed s.
Proof.
  intros Hg. unfold removed. rewrite Hg. unfold close_effect.
  destruct (close_raises ws); reflexivity.
Qed.

Lemma keys_of_one (d : list (string * WebSocket)) f w :
  NoDup (dict_keys d) -> dict_get d f = Some w ->
  filter (fun kv => String.eqb (fst kv) f) d = [(f, w)].
Proof.
  induction d as [|[k v] d IH]; simpl; [discriminate|].
  intros Hnd Hg. inversion Hnd as [|? ? Hk Hd]; subst.
  destruct (String.eqb_spec k f) as [->|Hne].
  - injection Hg as ->. f_equal.
    clear IH Hnd Hd. induction d as [|[k' v'] d IH]; simpl; [reflexivity|].
    simpl in Hk. destruct (String.eqb_spec k' f) as [->|Hne].
    + exfalso. apply Hk. left. reflexivity.
    + apply IH. intros H. apply Hk. right. exact H.
  - apply IH; assumption.
Qed.

Lemma dict_del_length (d : list (string * WebSocket)) f w :
  NoDup (dict_keys d) -> dict_get d f = Some w ->
  length (dict_del d f) = length d - 1.
Proof.
  induction d as [|[k v] d IH]; simpl; [discriminate|].
  intros Hnd Hg. inversion Hnd as [|? ? Hk Hd]; subst.
  destruct (String.eqb_spec k f) as [->|Hne]; simpl.
  - fold (dict_del d f). rewrite dict_del_absent; [lia|].
    apply dict_contains_false. exact Hk.
  - fold (dict_del d f). rewrite (IH Hd Hg).
    destruct d; [discriminate | simpl; lia].
Qed.

Lemma filter_ext_in_bool (A : Type) (f g : A -> bool) (l : list A) :
  (forall x, In x l -> f x = g x) -> filter f l = filter g l.
Proof.
  induction l as [|x l IH]; simpl; intros H; [reflexivity|].
  rewrite (H x) by (left; reflexivity).
  rewrite IH by (intros y Hy; apply H; right; exact Hy). reflexivity.
Qed.

Lemma filter_comm (A : Type) (f g : A -> bool) (l : list A) :
  filter f (filter g l) = filter g (filter f l).
Proof.
  rewrite !filter_filter. apply filter_ext_in_bool.
  intros x _. apply andb_comm.
Qed.

(** C5: a broadcast over a registry in which the sends to [f], and to [f]
    only, fail.  The pass attempts every recipient, in the order of the
    registry, and reaches all of them but [f]; only then is [f] closed and
    removed, and its [user_left] sent to the clients that remain.  The
    registry at the end is the initial one less [f]. *)
Theorem broadcast_single_failure
    (message : json) (exclude : option string) (s : state)
    (f : string) (ws_f : WebSocket) :
  lock s = false ->
  NoDup (dict_keys (active_connections s)) ->
  dict_get (active_connections s) f = Some ws_f ->
  not_excluded f exclude = true ->
  (forall k w, In (k, w) (active_connections s) ->
               can_send (closed s) w = negb (String.eqb k f)) ->
  let remaining := dict_del (active_connections s) f in
  exists s',
    broadcast message exclude s = Return tt s'
    /\ active_connections s' = remaining
    /\ length remaining = length (active_connections s) - 1
    /\ trace s' =
       trace s
       ++ map (fun kv => if String.eqb (fst kv) f
                         then EvSendFailed (snd kv) message
                         else EvSent (snd kv) message)
            (recipients exclude (active_connections s))
       ++ [if close_raises ws_f then EvCloseFailed ws_f else EvClosed ws_f;
           EvDel f]
       ++ map (fun kv => EvSent (snd kv) (user_left_msg f (length remaining)))
            remaining.
Proof.
  intros Hl Hnd Hg Hex Hcs remaining.
  assert (Hin : In (f, ws_f) (active_connections s))
    by (apply dict_get_In; exact Hg).
  assert (Hdead : can_send (closed s) ws_f = false).
  { rewrite (Hcs f ws_f Hin), String.eqb_refl. reflexivity. }
  assert (Hfailed :
            pass_failed (closed s) exclude (active_connections s) = [f]).
  { unfold pass_failed, recipients. rewrite filter_comm.
    rewrite (filter_ext_in_bool _
               (fun kv => negb (can_send (closed s) (snd kv)))
               (fun kv => String.eqb (fst kv) f)).
    - rewrite (keys_of_one _ f ws_f Hnd Hg). simpl. rewrite Hex. reflexivity.
    - intros [k w] Hkw. simpl. rewrite (Hcs k w Hkw).
      apply negb_involutive. }
  assert (Hevents :
            pass_events (closed s) message exclude (active_connections s) =
            map (fun kv => if String.eqb (fst kv) f
                           then EvSendFailed (snd kv) message
                           else EvSent (snd kv) message)
              (recipients exclude (active_connections s))).
  { unfold pass_events. apply map_ext_in. intros [k w] Hkw.
    unfold recipients in Hkw. apply filter_In in Hkw. destruct Hkw as [Hkw _].
    unfold send_event. simpl. rewrite (Hcs k w Hkw).
    destruct (String.eqb k f); reflexivity. }
  set (s1 := append_trace
               (pass_events (closed s) message exclude (active_connections s))
               s).
  assert (Hl1 : lock s1 = false) by exact Hl.
  assert (Hg1 : dict_get (active_connections s1) f = Some ws_f) by exact Hg.
  assert (Hlive :
            Forall (fun kv => can_send (closed (removed f s1)) (snd kv) = true)
              (dict_del (active_connections s1) f)).
  { apply Forall_forall. intros [k w] Hkw. simpl.
    unfold dict_del in Hkw. apply filter_In in Hkw.
    destruct Hkw as [Hkw Hne]. simpl in Hne.
    assert (Hw : can_send (closed s) w = true).
    { rewrite (Hcs k w Hkw). exact Hne. }
    rewrite (removed_closed f s1 ws_f Hg1).
    destruct (close_raises ws_f); [exact Hw|].
    apply can_send_after_close; assumption. }
  destruct (disconnect_outcome f s1 Hl1)
    as (s' & rest & E & Hl' & Hs & Ht & Hu & Hh).
  destruct (Hh Hlive) as [-> Hreg].
  assert (Efuel : disconnect_ (fuel_for s) f s1 = Return tt s') by exact E.
  exists s'. repeat split.
  - rewrite broadcast_eq by exact Hl. rewrite Hfailed. fold s1.
    simpl. unfold bind. rewrite Efuel. reflexivity.
  - exact Hreg.
  - apply (dict_del_length _ f ws_f Hnd Hg).
  - rewrite Ht. unfold s1 at 1. simpl. rewrite Hevents.
    unfold removal_events. rewrite Hg1. rewrite app_nil_r.
    rewrite <- !app_assoc. f_equal. f_equal. simpl. f_equal. f_equal.
    apply map_ext_in. intros [k w] Hkw.
    rewrite Forall_forall in Hlive. specialize (Hlive (k, w) Hkw).
    unfold send_event. simpl in *. rewrite Hlive. reflexivity.
Qed.

Lemma broadcast_single_failure_witness :
  lock room_with_dead = false
  /\ NoDup (dict_keys (active_connections room_with_dead))
  /\ dict_get (active_connections room_with_dead) "D" = Some ws_dead
  /\ not_excluded "D" (Some "A") = true
  /\ (forall k w, In (k, w) (active_connections room_with_dead) ->
                  can_send (closed room_with_dead) w
                  = negb (String.eqb k "D"))
  /\ exists s',
       broadcast (user_joined_msg "A" 3) (Some "A") room_with_dead
       = Return tt s'
       /\ active_connections s' = [("A", ws_alice); ("B", ws_bob)]
       /\ trace s' = [EvSendFailed ws_dead (user_joined_msg "A" 3);
                      EvSent ws_bob (user_joined_msg "A" 3);
                      EvClosed ws_dead; EvDel "D";
                      EvSent ws_alice (user_left_msg "D" 2);
                      EvSent ws_bob (user_left_msg "D" 2)].
Proof.
  assert (Hnd : NoDup (dict_keys (active_connections room_with_dead))).
  { simpl. repeat constructor; simpl; intuition discriminate. }
  assert (Hcs : forall k w, In (k, w) (active_connections room_with_dead) ->
                  can_send (closed room_with_dead) w
                  = negb (String.eqb k "D")).
  { simpl. intros k w [H|[H|[H|[]]]]; injection H as <- <-; reflexivity. }
  split; [reflexivity|]. split; [exact Hnd|]. split; [reflexivity|].
  split; [reflexivity|]. split; [exact Hcs|].
  destruct (broadcast_single_failure (user_joined_msg "A" 3) (Some "A")
              room_with_dead "D" ws_dead eq_refl Hnd eq_refl eq_refl Hcs)
    as (s' & E & Hr & _ & Ht).
  exists s'. split; [exact E|]. split; [exact Hr | exact Ht].
Defined.

(** C1, as the code has it: a registered client that a broadcast pass
    addresses and fails to reach is no longer registered when the
    broadcast returns.  The pass attempts each recipient once; it is
    followed by notices of departure only, among them the removal of [f]
    directly followed by the pass that sends its [user_left] to the
    clients that remain.  A direct reply on the same socket
    ([_safe_send_json]) fails without any of this: it returns [False] and
    leaves the registry as it is. *)
Theorem broadcast_failure_disconnects
    (message : json) (exclude : option string) (s : state)
    (f : string) (ws_f : WebSocket) :
  lock s = false ->
  In (f, ws_f) (active_connections s) ->
  not_excluded f exclude = true ->
  can_send (closed s) ws_f = false ->
  (exists s' delta,
      broadcast message exclude s = Return tt s'
      /\ registered s' f = false
      /\ trace s' =
         trace s
         ++ map (fun kv => send_event (closed s) (snd kv) message)
              (recipients exclude (active_connections s))
         ++ delta
      /\ announced f s s' delta
      /\ (forall e m, In e delta -> event_message e = Some m ->
            exists d n, m = user_left_msg d n))
  /\ (exists s',
        _safe_send_json ws_f message s = Return false s'
        /\ active_connections s' = active_connections s
        /\ trace s' = trace s ++ [EvSendFailed ws_f message]).
Proof.
  intros Hl Hin Hex Hdead. split.
  - destruct (broadcast_returns message exclude s Hl)
      as (s' & E & Hl' & Hs' & Hd' & (delta & Ht & Hu & Ha)).
    assert (Hf : In f (pass_failed (closed s) exclude
                         (active_connections s))).
    { unfold pass_failed, recipients. apply in_map_iff. exists (f, ws_f).
      split; [reflexivity|]. apply filter_In. split.
      - apply filter_In. split; [exact Hin | exact Hex].
      - simpl. rewrite Hdead. reflexivity. }
    exists s', delta. repeat split.
    + exact E.
    + apply Hd'. exact Hf.
    + rewrite Ht. simpl. rewrite <- app_assoc. reflexivity.
    + apply Ha; [|apply Hd'; exact Hf].
      apply pass_failed_registered in Hf. exact Hf.
    + intros e m He Hm. destruct (Hu e m He Hm) as (d & n & -> & _).
      exists d, n. reflexivity.
  - rewrite safe_send_json_eq. unfold send_event. rewrite Hdead.
    eexists. split; [reflexivity|]. split; reflexivity.
Qed.

Lemma broadcast_failure_disconnects_witness :
  lock room_with_dead = false
  /\ In ("D", ws_dead) (active_connections room_with_dead)
  /\ not_excluded "D" None = true
  /\ can_send (closed room_with_dead) ws_dead = false
  /\ exists s',
       broadcast JNull None room_with_dead = Return tt s'
       /\ registered s' "D" = false.
Proof.
  assert (Hin : In ("D", ws_dead) (active_connections room_with_dead))
    by (simpl; auto).
  split; [reflexivity|]. split; [exact Hin|]. split; [reflexivity|].
  split; [reflexivity|].
  destruct (broadcast_failure_disconnects JNull None room_with_dead
              "D" ws_dead eq_refl Hin eq_refl eq_refl)
    as [(s' & delta & E & Hr & _) _].
  exists s'. split; [exact E | exact Hr].
Defined.

(** ** The router *)

Lemma emitted_app {A} (o : outcome A) s delta :
  trace (final_state o) = trace s ++ delta -> emitted o s = delta.
Proof.
  intros H. unfold emitted. rewrite H.
  rewrite skipn_app, skipn_all, Nat.sub_diag. reflexivity.
Qed.

Lemma forward_emits kind field c data s :
  exists delta,
    trace (final_state (forward kind field c data s)) = trace s ++ delta
    /\ forall e m, In e delta -> event_message e = Some m ->
         exists payload, m = forwarded kind field payload c.
Proof.
  assert (Hnil : forall s0 : state,
             trace s0 = trace s ->
             exists delta,
               trace s0 = trace s ++ delta
               /\ forall e m, In e delta -> event_message e = Some m ->
                    exists payload, m = forwarded kind field payload c).
  { intros s0 H0. exists []. rewrite app_nil_r. split; [exact H0|].
    intros e m []. }
  unfold forward, bind at 1, data_get.
  destruct (json_get data "target") as [target|]; [|apply Hnil; reflexivity].
  unfold bind at 1, target_registered.
  destruct (truthy target); [|apply Hnil; reflexivity].
  destruct target as [| | |t| |]; try (apply Hnil; reflexivity).
  destruct (dict_contains (active_connections s) t);
    [|apply Hnil; reflexivity].
  unfold bind at 1.
  destruct (json_get data field) as [payload|]; [|apply Hnil; reflexivity].
  unfold bind at 1. rewrite send_to_eq. simpl target_id_of.
  destruct (lock s); [apply Hnil; reflexivity|].
  destruct (dict_get (active_connections s) t) as [ws|];
    [|apply Hnil; reflexivity].
  destruct (can_send (closed s) ws); simpl.
  - exists [EvSent ws (forwarded kind field payload c)].
    split; [reflexivity|].
    intros e m [<-|[]] [= <-]. exists payload. reflexivity.
  - exists [EvSendFailed ws (forwarded kind field payload c)].
    split; [reflexivity|].
    intros e m [<-|[]] [= <-]. exists payload. reflexivity.
Qed.

Lemma handle_message_emits ws c data s :
  exists delta,
    trace (final_state (handle_message ws c data s)) = trace s ++ delta
    /\ forall e m, In e delta -> event_message e = Some m ->
         m = users_list_msg (ListIDs s)
         \/ exists kind field payload,
              In (kind, field) routed /\ m = forwarded kind field payload c.
Proof.
  assert (Hfwd : forall kind field,
             In (kind, field) routed ->
             exists delta,
               trace (final_state (forward kind field c data s))
               = trace s ++ delta
               /\ forall e m, In e delta -> event_message e = Some m ->
                    m = users_list_msg (ListIDs s)
                    \/ exists kind field payload,
                         In (kind, field) routed
                         /\ m = forwarded kind field payload c).
  { intros kind field Hin.
    destruct (forward_emits kind field c data s) as (delta & Ht & Hm).
    exists delta. split; [exact Ht|].
    intros e m He Hem. right. destruct (Hm e m He Hem) as [payload ->].
    exists kind, field, payload. auto. }
  unfold handle_message, bind at 1, data_get.
  destruct (json_get data "type") as [t|].
  - destruct (json_is_str t "get_users").
    + unfold bind at 1, keys. unfold bind. rewrite safe_send_json_eq.
      simpl. eexists. split; [reflexivity|].
      intros e m [<-|[]]. unfold send_event.
      destruct (can_send (closed s) ws); intros [= <-]; left; reflexivity.
    + destruct (json_is_str t "offer");
        [apply (Hfwd "offer" "offer"); simpl; auto|].
      destruct (json_is_str t "answer");
        [apply (Hfwd "answer" "answer"); simpl; auto|].
      destruct (json_is_str t "ice_candidate");
        [apply (Hfwd "ice_candidate" "candidate"); simpl; auto|].
      exists []. simpl. rewrite app_nil_r. split; [reflexivity|].
      intros e m [].
  - exists []. simpl. rewrite app_nil_r. split; [reflexivity|].
    intros e m [].
Qed.

Lemma handle_message_ignores_client_id ws c data1 data2 s :
  (forall k, k <> "client_id" -> json_get data1 k = json_get data2 k) ->
  handle_message ws c data1 s = handle_message ws c data2 s.
Proof.
  intros H. unfold handle_message, data_get.
  rewrite !(H "type"), !(H "target"), !(H "offer"), !(H "answer"),
    !(H "candidate") by discriminate.
  reflexivity.
Qed.

Lemma receive_loop_ignores_client_id ws c inbox1 inbox2 :
  Forall2 same_but_client_id inbox1 inbox2 ->
  forall s, receive_loop ws c inbox1 s = receive_loop ws c inbox2 s.
Proof.
  induction 1 as [|r1 r2 l1 l2 Hr _ IH]; intros s; [reflexivity|].
  destruct r1 as [data1|], r2 as [data2|]; simpl in Hr; try contradiction;
    [|reflexivity].
  simpl. unfold bind, try_except.
  rewrite (handle_message_ignores_client_id ws c data1 data2 s Hr).
  destruct (handle_message ws c data2 s); simpl; try reflexivity.
  apply IH.
Qed.

Lemma websocket_endpoint_ignores_client_id ws c inbox1 inbox2 s :
  Forall2 same_but_client_id inbox1 inbox2 ->
  websocket_endpoint ws c inbox1 s = websocket_endpoint ws c inbox2 s.
Proof.
  intros H. unfold websocket_endpoint, try_finally, try_except, bind.
  destruct (connect ws c s); try reflexivity.
  rewrite (receive_loop_ignores_client_id ws c inbox1 inbox2 H).
  reflexivity.
Qed.

(** C8: [handle_message] reads the body through [data.get] at keys other
    than [client_id] only, so two bodies that agree on every other key
    give the same outcome, state and trace included; whatever message it
    emits with a [sender] field carries the identifier the endpoint was
    called with, the one of the path; and two runs of the endpoint on
    inboxes that differ in the [client_id] of the bodies only give the
    same outcome. *)
Theorem sender_is_connection_identity
    (ws : WebSocket) (c : string) (data1 data2 : json) (s : state) :
  (forall k, k <> "client_id" -> json_get data1 k = json_get data2 k) ->
  handle_message ws c data1 s = handle_message ws c data2 s
  /\ (forall e m v,
        In e (emitted (handle_message ws c data1 s) s) ->
        event_message e = Some m -> sender_of m = Some v -> v = JStr c)
  /\ (forall before after,
        websocket_endpoint ws c (before ++ RecvJson data1 :: after) s
        = websocket_endpoint ws c (before ++ RecvJson data2 :: after) s).
Proof.
  intros H. split; [apply handle_message_ignores_client_id; exact H|]. split.
  - destruct (handle_message_emits ws c data1 s) as (delta & Ht & Hm).
    rewrite (emitted_app _ _ _ Ht).
    intros e m v He Hem Hv.
    destruct (Hm e m He Hem) as [->|(kind & field & payload & Hin & ->)].
    + discriminate.
    + simpl in Hin.
      destruct Hin as [[= <- <-]|[[= <- <-]|[[= <- <-]|[]]]];
        simpl in Hv; injection Hv as <-; reflexivity.
  - intros before after. apply websocket_endpoint_ignores_client_id.
    apply Forall2_app.
    + induction before as [|r l IH]; constructor; [|exact IH].
      destruct r; simpl; auto.
    + constructor; [exact H|].
      induction after as [|r l IH]; constructor; [|exact IH].
      destruct r; simpl; auto.
Qed.

(** C7: a body of a routed type that names the target [B].  When [B] is
    registered, exactly one send is attempted, on the socket registered
    for [B], of a message of the same type carrying the payload as it came
    and [c] as sender; it is delivered, and the handler returns, when that
    socket can be sent to.  When [B] is not registered the handler returns
    and leaves the state as it was: nothing is sent to anybody and nothing
    is kept for a later connection of [B]. *)
Theorem routed_message_reaches_target
    (kind field : string) (ws : WebSocket) (c : string)
    (fields : list (string * json)) (B : string) (s : state) :
  In (kind, field) routed ->
  dict_get fields "type" = Some (JStr kind) ->
  dict_get fields "target" = Some (JStr B) ->
  B <> "" ->
  let message := forwarded kind field (field_or_null fields field) c in
  (forall ws_B,
      lock s = false ->
      dict_get (active_connections s) B = Some ws_B ->
      emitted (handle_message ws c (JObj fields) s) s
      = [send_event (closed s) ws_B message]
      /\ (can_send (closed s) ws_B = true ->
          handle_message ws c (JObj fields) s
          = Return tt (append_trace [EvSent ws_B message] s)))
  /\ (dict_get (active_connections s) B = None ->
      handle_message ws c (JObj fields) s = Return tt s
      /\ forall ws',
           connect ws' B (final_state (handle_message ws c (JObj fields) s))
           = connect ws' B s).
Proof.
  intros Hin Ht Htarget HB message.
  assert (E : handle_message ws c (JObj fields) s
              = forward kind field c (JObj fields) s).
  { apply handle_routed; [exact Hin|]. simpl. rewrite Ht. reflexivity. }
  rewrite E, (forward_eq kind field c fields B s Htarget HB).
  split.
  - intros ws_B Hl Hg. rewrite Hg, Hl. fold message. unfold send_event.
    destruct (can_send (closed s) ws_B); simpl.
    + split; [|reflexivity]. apply emitted_app. reflexivity.
    + split; [|discriminate]. apply emitted_app. reflexivity.
  - intros Hg. rewrite Hg. split; reflexivity.
Qed.

Lemma routed_message_reaches_target_witness :
  In ("offer", "offer") routed
  /\ dict_get (offer_body "A" "B") "type" = Some (JStr "offer")
  /\ dict_get (offer_body "A" "B") "target" = Some (JStr "B")
  /\ "B" <> ""
  /\ handle_message ws_alice "A" (JObj (offer_body "A" "B")) room_alice_bob
     = Return tt
         (append_trace
            [EvSent ws_bob
               (JObj [("type", JStr "offer"); ("offer", JStr "sdp");
                      ("sender", JStr "A")])]
            room_alice_bob).
Proof.
  assert (Hin : In ("offer", "offer") routed) by (simpl; auto).
  assert (HB : "B" <> "") by discriminate.
  split; [exact Hin|]. split; [reflexivity|]. split; [reflexivity|].
  split; [exact HB|].
  destruct (routed_message_reaches_target "offer" "offer" ws_alice "A"
              (offer_body "A" "B") "B" room_alice_bob Hin eq_refl eq_refl HB)
    as [Hreg _].
  destruct (Hreg ws_bob eq_refl eq_refl) as [_ Hsent].
  exact (Hsent eq_refl).
Defined.

Lemma sender_is_connection_identity_witness :
  (forall k, k <> "client_id" ->
             json_get (JObj (offer_body "B" "B")) k
             = json_get (JObj (offer_body "A" "B")) k)
  /\ handle_message ws_alice "A" (JObj (offer_body "B" "B")) room_alice_bob
     = handle_message ws_alice "A" (JObj (offer_body "A" "B")) room_alice_bob.
Proof.
  assert (H : forall k, k <> "client_id" ->
                json_get (JObj (offer_body "B" "B")) k
                = json_get (JObj (offer_body "A" "B")) k).
  { intros k Hk. unfold json_get, offer_body. cbn [dict_get].
    destruct (String.eqb "type" k); [reflexivity|].
    destruct (String.eqb_spec "client_id" k) as [Heq|_];
      [symmetry in Heq; contradiction | reflexivity]. }
  split; [exact H|].
  exact (proj1 (sender_is_connection_identity ws_alice "A" _ _
                  room_alice_bob H)).
Defined.

(** C6: a [get_users] body handled for the client [X] on the socket [ws]
    registered for it.  One [users_list] is sent on [ws], and nothing
    else; its [users] are the identifiers of the whole registry, [X] among
    them, and its [users_online] is their number.  The reply is delivered
    when [ws] can be sent to. *)
Theorem get_users_lists_everyone
    (ws : WebSocket) (X : string) (fields : list (string * json))
    (s : state) :
  dict_get fields "type" = Some (JStr "get_users") ->
  dict_get (active_connections s) X = Some ws ->
  let reply := users_list_msg (ListIDs s) in
  handle_message ws X (JObj fields) s
  = Return tt (append_trace [send_event (closed s) ws reply] s)
  /\ In X (ListIDs s)
  /\ json_get reply "users" = Some (JList (map JStr (ListIDs s)))
  /\ json_get reply "users_online"
     = Some (JNum (Z.of_nat (length (ListIDs s))))
  /\ (can_send (closed s) ws = true ->
      emitted (handle_message ws X (JObj fields) s) s = [EvSent ws reply]).
Proof.
  intros Ht Hg reply. rewrite (handle_get_users ws X fields s Ht).
  fold (ListIDs s). fold reply. repeat split.
  - apply dict_contains_keys. unfold dict_contains. rewrite Hg. reflexivity.
  - intros Hc. apply emitted_app. simpl. unfold send_event. rewrite Hc.
    reflexivity.
Qed.

Lemma get_users_lists_everyone_witness :
  dict_get get_users_body "type" = Some (JStr "get_users")
  /\ dict_get (active_connections room_alice_bob) "A" = Some ws_alice
  /\ handle_message ws_alice "A" (JObj get_users_body) room_alice_bob
     = Return tt
         (append_trace
            [EvSent ws_alice
               (JObj [("type", JStr "users_list");
                      ("users", JList [JStr "A"; JStr "B"]);
                      ("users_online", JNum 2)])]
            room_alice_bob).
Proof.
  split; [reflexivity|]. split; [reflexivity|].
  exact (proj1 (get_users_lists_everyone ws_alice "A" get_users_body
                  room_alice_bob eq_refl eq_refl)).
Defined.

(** C9: handling a [get_users] body returns and changes nothing but the
    trace, which grows by the one attempt to send the reply: the registry,
    the lock and the closed sockets are as before, whether or not the
    reply could be sent. *)
Theorem get_users_preserves_registry
    (ws : WebSocket) (c : string) (fields : list (string * json))
    (s : state) :
  dict_get fields "type" = Some (JStr "get_users") ->
  exists s',
    handle_message ws c (JObj fields) s = Return tt s'
    /\ active_connections s' = active_connections s
    /\ lock s' = lock s
    /\ closed s' = closed s
    /\ trace s' =
       trace s ++ [send_event (closed s) ws (users_list_msg (ListIDs s))].
Proof.
  intros Ht. rewrite (handle_get_users ws c fields s Ht).
  eexists. split; [reflexivity|]. repeat split.
Qed.

Lemma get_users_preserves_registry_witness :
  dict_get get_users_body "type" = Some (JStr "get_users")
  /\ exists s',
       handle_message ws_dead "D" (JObj get_users_body) room_with_dead
       = Return tt s'
       /\ active_connections s' = active_connections room_with_dead
       /\ emitted (handle_message ws_dead "D" (JObj get_users_body)
                     room_with_dead) room_with_dead
          = [EvSendFailed ws_dead (users_list_msg ["A"; "D"; "B"])].
Proof.
  split; [reflexivity|].
  destruct (get_users_preserves_registry ws_dead "D" get_users_body
              room_with_dead eq_refl) as (s' & E & Hr & _ & _ & Ht).
  exists s'. split; [exact E|]. split; [exact Hr|].
  apply emitted_app. rewrite E. exact Ht.
Defined.

(** ** Sequences of connects and disconnects *)

Lemma sends_all_live cl m (l : list (string * WebSocket)) :
  (forall e, In e (map (fun kv => send_event cl (snd kv) m) l) ->
             is_failure e = false) ->
  Forall (fun kv => can_send cl (snd kv) = true) l.
Proof.
  intros H. apply Forall_forall. intros kv Hkv.
  assert (He : is_failure (send_event cl (snd kv) m) = false).
  { apply H. apply in_map_iff. exists kv. auto. }
  unfold send_event in He.
  destruct (can_send cl (snd kv)); [reflexivity | discriminate].
Qed.

Lemma ListIDs_set (d : list (string * WebSocket)) c ws id :
  In id (dict_keys (dict_set d c ws)) <-> id = c \/ In id (dict_keys d).
Proof.
  rewrite dict_keys_set. destruct (dict_contains d c) eqn:E.
  - apply dict_contains_keys in E. split; [auto|].
    intros [->|H]; assumption.
  - rewrite in_app_iff. simpl. intuition.
Qed.

Lemma ListIDs_del (d : list (string * WebSocket)) c id :
  In id (dict_keys (dict_del d c)) <-> id <> c /\ In id (dict_keys d).
Proof.
  rewrite dict_keys_del, filter_In.
  destruct (String.eqb_spec id c); simpl; intuition congruence.
Qed.

Lemma NoDup_set (d : list (string * WebSocket)) c ws :
  NoDup (dict_keys d) -> NoDup (dict_keys (dict_set d c ws)).
Proof.
  intros H. rewrite dict_keys_set. destruct (dict_contains d c) eqn:E.
  - exact H.
  - apply dict_contains_false in E.
    induction (dict_keys d) as [|k l IH]; simpl.
    + constructor; [intros []|constructor].
    + inversion H; subst. constructor.
      * rewrite in_app_iff. simpl. intros [Hk|[Hk|[]]]; [contradiction|].
        subst. apply E. left. reflexivity.
      * apply IH; [assumption|]. intros Hc. apply E. right. exact Hc.
Qed.

Lemma shrinks_NoDup s s' :
  shrinks s s' -> NoDup (ListIDs s) -> NoDup (ListIDs s').
Proof.
  intros [f Hf] H. unfold ListIDs. rewrite Hf, (dict_keys_filter f).
  apply NoDup_filter. exact H.
Qed.

Lemma shrinks_ListIDs s s' id :
  shrinks s s' -> In id (ListIDs s') -> In id (ListIDs s).
Proof.
  intros Hs H. apply dict_contains_keys. apply dict_contains_keys in H.
  apply (shrinks_registered s s' id Hs H).
Qed.

Lemma connect_summary ws c s :
  lock s = false ->
  let s' := final_state (connect ws c s) in
  lock s' = false
  /\ exists delta,
       trace s' = trace s ++ delta
       /\ ((accept_raises ws = true
            /\ active_connections s' = active_connections s
            /\ In (EvAcceptFailed ws) delta)
           \/ (accept_raises ws = false
               /\ shrinks (admitted ws c s) s'
               /\ ((forall e, In e delta -> is_failure e = false) ->
                   active_connections s'
                   = dict_set (active_connections s) c ws))).
Proof.
  intros Hl. destruct (accept_raises ws) eqn:Ha.
  - rewrite (connect_raises ws c s Ha). simpl. split; [exact Hl|].
    exists [EvAcceptFailed ws]. split; [reflexivity|].
    left. simpl. auto.
  - destruct (connect_returns ws c s Ha Hl)
      as (s' & rest & E & Hl' & Hs & Ht & _ & Hh).
    rewrite E. simpl. split; [exact Hl'|].
    eexists. split; [rewrite Ht; simpl; rewrite <- app_assoc; reflexivity|].
    right. split; [reflexivity|]. split; [exact Hs|].
    intros Hok. apply Hh. apply sends_all_live with (m := user_joined_msg c
      (length (active_connections (admitted ws c s)))).
    intros e He. apply Hok. apply in_or_app. right. apply in_or_app. left.
    exact He.
Qed.

Lemma disconnect_summary c s :
  lock s = false ->
  let s' := final_state (disconnect c s) in
  lock s' = false
  /\ shrinks (removed c s) s'
  /\ exists delta,
       trace s' = trace s ++ delta
       /\ ((forall e, In e delta -> is_failure e = false) ->
           active_connections s' = dict_del (active_connections s) c).
Proof.
  intros Hl.
  destruct (disconnect_outcome c s Hl)
    as (s' & rest & E & Hl' & Hs & Ht & _ & Hh).
  rewrite E. simpl. split; [exact Hl'|]. split; [exact Hs|].
  eexists. split; [exact Ht|].
  intros Hok. apply Hh.
  apply sends_all_live with
    (m := user_left_msg c (length (dict_del (active_connections s) c))).
  intros e He. apply Hok. apply in_or_app. right. apply in_or_app. left.
  exact He.
Qed.

Lemma last_or_nil (A : Type) (l : list A) :
  l = [] \/ exists l' x, l = l' ++ [x].
Proof.
  induction l as [|x l _] using rev_ind; [left; reflexivity|].
  right. exists l, x. reflexivity.
Qed.

Lemma tracked_after_connect ops ws c id :
  connected_not_disconnected (ops ++ [Connect ws c]) id
  <-> id = c \/ connected_not_disconnected ops id.
Proof.
  split.
  - intros (before & ws' & after & E & Hn).
    destruct (last_or_nil _ after) as [->|(after' & x & ->)].
    + apply (app_inj_tail ops before) in E. destruct E as [_ E].
      injection E as _ ->. left. reflexivity.
    + rewrite app_comm_cons, app_assoc in E.
      apply app_inj_tail in E. destruct E as [-> _].
      right. exists before, ws', after'. split; [reflexivity|].
      intros H. apply Hn. apply in_or_app. left. exact H.
  - intros [->|(before & ws' & after & -> & Hn)].
    + exists ops, ws, []. split; [reflexivity | intros []].
    + exists before, ws', (after ++ [Connect ws c]).
      split; [rewrite <- app_assoc; reflexivity|].
      intros H. apply in_app_or in H. destruct H as [H|[H|[]]];
        [contradiction | discriminate].
Qed.

Lemma tracked_after_disconnect ops c id :
  connected_not_disconnected (ops ++ [Disconnect c]) id
  <-> id <> c /\ connected_not_disconnected ops id.
Proof.
  split.
  - intros (before & ws' & after & E & Hn).
    destruct (last_or_nil _ after) as [->|(after' & x & ->)].
    + apply (app_inj_tail ops before) in E. destruct E as [_ E].
      discriminate.
    + rewrite app_comm_cons, app_assoc in E.
      apply app_inj_tail in E. destruct E as [-> <-].
      split.
      * intros ->. apply Hn. apply in_or_app. right. left. reflexivity.
      * exists before, ws', after'. split; [reflexivity|].
        intros H. apply Hn. apply in_or_app. left. exact H.
  - intros [Hne (before & ws' & after & -> & Hn)].
    exists before, ws', (after ++ [Disconnect c]).
    split; [rewrite <- app_assoc; reflexivity|].
    intros H. apply in_app_or in H. destruct H as [H|[H|[]]];
      [contradiction | congruence].
Qed.

Lemma run_snoc ops op s :
  run (ops ++ [op]) s = apply_operation (run ops s) op.
Proof. unfold run. rewrite fold_left_app. reflexivity. Qed.

Lemma no_failure_prefix (l delta : list event) :
  (forall e, In e (l ++ delta) -> is_failure e = false) ->
  (forall e, In e l -> is_failure e = false)
  /\ (forall e, In e delta -> is_failure e = false).
Proof.
  intros H. split; intros e He; apply H; apply in_or_app; auto.
Qed.

Lemma run_invariant ops :
  let s := run ops initial in
  lock s = false
  /\ NoDup (ListIDs s)
  /\ (forall id, In id (ListIDs s) -> connected_not_disconnected ops id)
  /\ ((forall e, In e (trace s) -> is_failure e = false) ->
      forall id, connected_not_disconnected ops id -> In id (ListIDs s)).
Proof.
  induction ops as [|op ops IH] using rev_ind.
  - simpl. repeat split.
    + constructor.
    + intros id [].
    + intros _ id (before & ws & after & E & _).
      destruct before; discriminate.
  - rewrite run_snoc. set (s := run ops initial) in *.
    destruct IH as (Hl & Hnd & Hsub & Hsup).
    destruct op as [ws c|c]; simpl.
    + destruct (connect_summary ws c s Hl)
        as (Hl' & delta & Ht & [(Ha & Hr & Hf)|(Ha & Hs & Hr)]).
      * repeat split.
        -- exact Hl'.
        -- unfold ListIDs. rewrite Hr. exact Hnd.
        -- intros id Hid. apply tracked_after_connect. right. apply Hsub.
           unfold ListIDs in *. rewrite Hr in Hid. exact Hid.
        -- intros Hok. exfalso.
           assert (Hbad : is_failure (EvAcceptFailed ws) = false).
           { apply Hok. rewrite Ht. apply in_or_app. right. exact Hf. }
           discriminate.
      * repeat split.
        -- exact Hl'.
        -- apply (shrinks_NoDup _ _ Hs). unfold ListIDs. simpl.
           apply NoDup_set. exact Hnd.
        -- intros id Hid. apply tracked_after_connect.
           apply (shrinks_ListIDs _ _ _ Hs) in Hid.
           unfold ListIDs in Hid. simpl in Hid.
           apply ListIDs_set in Hid. destruct Hid as [->|Hid]; auto.
        -- intros Hok id Hid. rewrite Ht in Hok.
           apply no_failure_prefix in Hok. destruct Hok as [Hok1 Hok2].
           unfold ListIDs. rewrite (Hr Hok2). apply ListIDs_set.
           apply tracked_after_connect in Hid.
           destruct Hid as [->|Hid]; [left; reflexivity|].
           right. apply Hsup; assumption.
    + destruct (disconnect_summary c s Hl)
        as (Hl' & Hs & delta & Ht & Hr).
      repeat split.
      * exact Hl'.
      * apply (shrinks_NoDup _ _ Hs).
        apply (shrinks_NoDup _ _ (shrinks_removed c s)). exact Hnd.
      * intros id Hid. apply tracked_after_disconnect.
        apply (shrinks_ListIDs _ _ _ Hs) in Hid.
        unfold ListIDs in Hid. rewrite removed_connections in Hid.
        apply ListIDs_del in Hid. destruct Hid as [Hne Hid]. auto.
      * intros Hok id Hid. rewrite Ht in Hok.
        apply no_failure_prefix in Hok. destruct Hok as [Hok1 Hok2].
        unfold ListIDs. rewrite (Hr Hok2). apply ListIDs_del.
        apply tracked_after_disconnect in Hid.
        destruct Hid as [Hne Hid]. split; [exact Hne|].
        apply Hsup; assumption.
Qed.

(** C2, as the code has it: after any sequence of connects and
    disconnects from the empty registry, no identifier is listed twice and
    every listed identifier was connected and not disconnected afterwards;
    when no accept and no send failed during the sequence, the listed
    identifiers are exactly those.  Two connects under one identifier
    leave one entry, the one of the second socket. *)
Theorem registry_tracks_operations (ops : list operation) :
  let s := run ops initial in
  NoDup (ListIDs s)
  /\ (forall id, In id (ListIDs s) -> connected_not_disconnected ops id)
  /\ ((forall e, In e (trace s) -> is_failure e = false) ->
      forall id, In id (ListIDs s) <-> connected_not_disconnected ops id)
  /\ (forall ws1 ws2 id,
        accept_raises ws1 = false -> accept_raises ws2 = false ->
        active_connections (run [Connect ws1 id; Connect ws2 id] initial)
        = [(id, ws2)]).
Proof.
  destruct (run_invariant ops) as (_ & Hnd & Hsub & Hsup).
  repeat split; auto.
  intros ws1 ws2 id Ha1 Ha2. unfold run. simpl.
  assert (E1 : connect ws1 id initial = Return tt (admitted ws1 id initial)).
  { rewrite connect_eq by auto. unfold recipients. simpl.
    rewrite String.eqb_refl. reflexivity. }
  rewrite E1. simpl final_state.
  rewrite connect_eq by auto. unfold recipients. simpl.
  rewrite String.eqb_refl. simpl. rewrite String.eqb_refl. simpl.
  rewrite String.eqb_refl. reflexivity.
Qed.

Lemma registry_tracks_operations_witness :
  (forall e,
      In e (trace (run [Connect ws_alice "A"; Connect ws_bob "B";
                        Connect ws_carol "A"; Disconnect "B"] initial)) ->
      is_failure e = false)
  /\ ListIDs (run [Connect ws_alice "A"; Connect ws_bob "B";
                   Connect ws_carol "A"; Disconnect "B"] initial) = ["A"]
  /\ connected_not_disconnected
       [Connect ws_alice "A"; Connect ws_bob "B";
        Connect ws_carol "A"; Disconnect "B"] "A".
Proof.
  assert (Hok : forall e,
             In e (trace (run [Connect ws_alice "A"; Connect ws_bob "B";
                               Connect ws_carol "A"; Disconnect "B"]
                            initial)) ->
             is_failure e = false).
  { vm_compute. intros e H.
    repeat (destruct H as [<-|H]; [reflexivity|]). destruct H. }
  split; [exact Hok|]. split; [reflexivity|].
  destruct (registry_tracks_operations
              [Connect ws_alice "A"; Connect ws_bob "B";
               Connect ws_carol "A"; Disconnect "B"])
    as (_ & _ & Hiff & _).
  apply (proj1 (Hiff Hok "A")). vm_compute. left. reflexivity.
Defined.

(** C2 as stated fails: a client whose socket cannot be sent to is
    removed by the broadcast of the next connect, though no disconnect was
    asked for it. *)
Lemma registry_loses_unreachable_client :
  connected_not_disconnected
    [Connect ws_dead "D"; Connect ws_bob "B"] "D"
  /\ ListIDs (run [Connect ws_dead "D"; Connect ws_bob "B"] initial) = ["B"]
  /\ ~ In "D" (ListIDs (run [Connect ws_dead "D"; Connect ws_bob "B"]
                          initial)).
Proof.
  split.
  - exists [], ws_dead, [Connect ws_bob "B"]. split; [reflexivity|].
    intros [H|[]]. discriminate.
  - split; [reflexivity|]. vm_compute. intros [H|[]]. discriminate.
Qed.

(** ** The result of [send_to] *)

(** X1: with the lock free, [send_to] returns [True] exactly when the
    target is registered and its socket took the message, which is then
    the only change; it returns [False] exactly when the target is not
    registered, and then changes nothing; it never raises. *)
Theorem send_to_result (t : string) (m : json) (s : state) :
  lock s = false ->
  (forall s',
      send_to t m s = Return true s' <->
      exists ws, dict_get (active_connections s) t = Some ws
                 /\ can_send (closed s) ws = true
                 /\ s' = append_trace [EvSent ws m] s)
  /\ (forall s',
        send_to t m s = Return false s' <->
        dict_get (active_connections s) t = None /\ s' = s)
  /\ (forall s', send_to t m s <> Raise s').
Proof.
  intros Hl. rewrite send_to_eq, Hl.
  destruct (dict_get (active_connections s) t) as [ws|].
  - destruct (can_send (closed s) ws) eqn:Hc.
    + split; [|split].
      * intros s'. split.
        -- intros [= <-]. exists ws. auto.
        -- intros (ws' & [= <-] & _ & ->). reflexivity.
      * intros s'. split; [discriminate | intros [Hn _]; discriminate].
      * discriminate.
    + split; [|split].
      * intros s'. split; [discriminate|].
        intros (ws' & [= <-] & Hc' & _). congruence.
      * intros s'. split; [discriminate | intros [Hn _]; discriminate].
      * discriminate.
  - split; [|split].
    + intros s'. split; [discriminate | intros (ws' & Hn & _); discriminate].
    + intros s'. split.
      * intros [= <-]. auto.
      * intros [_ ->]. reflexivity.
    + discriminate.
Qed.

Lemma send_to_result_witness :
  lock room_alice_bob = false
  /\ send_to "B" JNull room_alice_bob
     = Return true (append_trace [EvSent ws_bob JNull] room_alice_bob)
  /\ send_to "Z" JNull room_alice_bob = Return false room_alice_bob.
Proof.
  split; [reflexivity|].
  destruct (send_to_result "B" JNull room_alice_bob eq_refl) as (Ht & _ & _).
  destruct (send_to_result "Z" JNull room_alice_bob eq_refl) as (_ & Hf & _).
  split.
  - apply Ht. exists ws_bob. repeat split.
  - apply Hf. split; reflexivity.
Defined.

(** ** The outcomes of [handle_message] *)

Lemma json_is_str_eq t k : json_is_str t k = true -> t = JStr k.
Proof.
  destruct t; simpl; try discriminate.
  intros H. apply String.eqb_eq in H. subst. reflexivity.
Qed.

Lemma forward_cases kind field c data s :
  forward kind field c data s = Return tt s
  \/ forward kind field c data s = Raise s
  \/ exists t ws payload,
       json_get data "target" = Some (JStr t)
       /\ dict_get (active_connections s) t = Some ws
       /\ json_get data field = Some payload
       /\ ((lock s = true /\ forward kind field c data s = Blocked s)
           \/ (lock s = false /\ can_send (closed s) ws = true
               /\ forward kind field c data s
                  = Return tt
                      (append_trace
                         [EvSent ws (forwarded kind field payload c)] s))
           \/ (lock s = false /\ can_send (closed s) ws = false
               /\ forward kind field c data s
                  = Blocked
                      (append_trace
                         [EvSendFailed ws (forwarded kind field payload c)]
                         (set_lock true s)))).
Proof.
  remember (forward kind field c data s) as o eqn:Eo.
  unfold forward, bind at 1, data_get in Eo.
  destruct (json_get data "target") as [target|] eqn:Et; [|auto].
  unfold bind at 1, target_registered in Eo.
  destruct (truthy target); [|auto].
  destruct target as [| | |t| |]; auto.
  unfold dict_contains in Eo.
  destruct (dict_get (active_connections s) t) as [ws|] eqn:Hg; [|auto].
  unfold bind at 1 in Eo.
  destruct (json_get data field) as [payload|] eqn:Ep; [|auto].
  right. right. exists t, ws, payload.
  split; [reflexivity|]. split; [exact Hg|]. split; [reflexivity|].
  unfold bind at 1 in Eo. rewrite send_to_eq in Eo. simpl target_id_of in Eo.
  rewrite Hg in Eo.
  destruct (lock s); [left; auto|].
  destruct (can_send (closed s) ws); [right; left | right; right]; auto.
Qed.

Lemma handle_message_cases ws c data s :
  (json_get data "type" = Some (JStr "get_users")
   /\ handle_message ws c data s
      = Return tt
          (append_trace
             [send_event (closed s) ws (users_list_msg (ListIDs s))] s))
  \/ (exists kind field,
         In (kind, field) routed
         /\ json_get data "type" = Some (JStr kind)
         /\ handle_message ws c data s = forward kind field c data s)
  \/ handle_message ws c data s = Return tt s
  \/ (json_get data "type" = None /\ handle_message ws c data s = Raise s).
Proof.
  destruct (json_get data "type") as [t|] eqn:Et.
  - destruct (json_is_str t "get_users") eqn:E1.
    { left. apply json_is_str_eq in E1. subst t. split; [reflexivity|].
      unfold handle_message, bind at 1, data_get. rewrite Et. simpl.
      unfold bind at 1, keys. unfold bind. rewrite safe_send_json_eq.
      reflexivity. }
    destruct (json_is_str t "offer") eqn:E2.
    { right. left. apply json_is_str_eq in E2. subst t.
      exists "offer", "offer". split; [simpl; auto|]. split; [reflexivity|].
      apply handle_routed; [simpl; auto | exact Et]. }
    destruct (json_is_str t "answer") eqn:E3.
    { right. left. apply json_is_str_eq in E3. subst t.
      exists "answer", "answer". split; [simpl; auto|].
      split; [reflexivity|].
      apply handle_routed; [simpl; auto | exact Et]. }
    destruct (json_is_str t "ice_candidate") eqn:E4.
    { right. left. apply json_is_str_eq in E4. subst t.
      exists "ice_candidate", "candidate". split; [simpl; auto|].
      split; [reflexivity|].
      apply handle_routed; [simpl; auto | exact Et]. }
    right. right. left. apply (handle_other ws c data s t Et E1).
    intros kind field Hin. simpl in Hin.
    destruct Hin as [[= <- <-]|[[= <- <-]|[[= <- <-]|[]]]]; assumption.
  - right. right. right. split; [reflexivity|].
    apply handle_not_dict. exact Et.
Qed.

Lemma handle_message_frame ws c data s :
  active_connections (final_state (handle_message ws c data s))
  = active_connections s
  /\ closed (final_state (handle_message ws c data s)) = closed s.
Proof.
  destruct (handle_message_cases ws c data s)
    as [[_ E]|[(kind & field & _ & _ & E)|[E|[_ E]]]]; rewrite E;
    try (split; reflexivity).
  destruct (forward_cases kind field c data s)
    as [F|[F|(t & w & payload & _ & _ & _ & [[_ F]|[(_ & _ & F)|(_ & _ & F)]])]];
    rewrite F; split; reflexivity.
Qed.

(** X3: whatever the body and whatever the state, [handle_message] leaves
    the registry and the closed sockets as they were: the router installs,
    removes and closes nothing, also when a forwarded send fails. *)
Theorem handle_message_keeps_registry
    (ws : WebSocket) (c : string) (data : json) (s : state) :
  active_connections (final_state (handle_message ws c data s))
  = active_connections s
  /\ closed (final_state (handle_message ws c data s)) = closed s.
Proof.
  destruct (handle_message_cases ws c data s)
    as [[_ E]|[(kind & field & _ & _ & E)|[E|[_ E]]]]; rewrite E;
    try (split; reflexivity).
  destruct (forward_cases kind field c data s)
    as [F|[F|(t & w & payload & _ & _ & _ & [[_ F]|[(_ & _ & F)|(_ & _ & F)]])]];
    rewrite F; split; reflexivity.
Qed.

Lemma handle_message_blocked ws c data s s' :
  lock s = false ->
  handle_message ws c data s = Blocked s' ->
  exists kind field t ws_t payload,
    In (kind, field) routed
    /\ json_get data "type" = Some (JStr kind)
    /\ json_get data "target" = Some (JStr t)
    /\ dict_get (active_connections s) t = Some ws_t
    /\ can_send (closed s) ws_t = false
    /\ s' = append_trace [EvSendFailed ws_t (forwarded kind field payload c)]
              (set_lock true s)
    /\ lock s' = true
    /\ registered s' t = true.
Proof.
  intros Hl E.
  destruct (handle_message_cases ws c data s)
    as [[_ E1]|[(kind & field & Hin & Ht & E1)|[E1|[_ E1]]]];
    rewrite E1 in E; try discriminate.
  destruct (forward_cases kind field c data s)
    as [F|[F|(t & w & payload & Htg & Hg & _ & [[Hl' _]|[(_ & _ & F)|(_ & Hc & F)]])]];
    try (rewrite F in E; discriminate); [congruence|].
  rewrite F in E. injection E as <-.
  exists kind, field, t, w, payload. repeat split; try assumption.
  unfold registered, dict_contains. simpl. rewrite Hg. reflexivity.
Qed.

(** X4: with the lock free, [handle_message] waits for ever in one case
    only: the body has a routed type and names a registered target whose
    socket cannot be sent to.  The failed send is the last event, the lock
    is left taken and the target registered. *)
Theorem handle_message_blocks_on_failed_send
    (ws : WebSocket) (c : string) (data : json) (s s' : state) :
  lock s = false ->
  handle_message ws c data s = Blocked s' ->
  exists kind field t ws_t payload,
    In (kind, field) routed
    /\ json_get data "type" = Some (JStr kind)
    /\ json_get data "target" = Some (JStr t)
    /\ dict_get (active_connections s) t = Some ws_t
    /\ can_send (closed s) ws_t = false
    /\ s' = append_trace [EvSendFailed ws_t (forwarded kind field payload c)]
              (set_lock true s)
    /\ lock s' = true
    /\ registered s' t = true.
Proof.
  intros Hl E.
  destruct (handle_message_cases ws c data s)
    as [[_ E1]|[(kind & field & Hin & Ht & E1)|[E1|[_ E1]]]];
    rewrite E1 in E; try discriminate.
  destruct (forward_cases kind field c data s)
    as [F|[F|(t & w & payload & Htg & Hg & _ & [[Hl' _]|[(_ & _ & F)|(_ & Hc & F)]])]];
    try (rewrite F in E; discriminate); [congruence|].
  rewrite F in E. injection E as <-.
  exists kind, field, t, w, payload. repeat split; try assumption.
  unfold registered, dict_contains. simpl. rewrite Hg. reflexivity.
Qed.

Lemma handle_message_blocks_on_failed_send_witness :
  lock room_with_dead = false
  /\ handle_message ws_alice "A" (JObj (offer_body "A" "D")) room_with_dead
     = Blocked
         (append_trace
            [EvSendFailed ws_dead (forwarded "offer" "offer" (JStr "sdp") "A")]
            (set_lock true room_with_dead))
  /\ exists t ws_t,
       json_get (JObj (offer_body "A" "D")) "target" = Some (JStr t)
       /\ dict_get (active_connections room_with_dead) t = Some ws_t
       /\ can_send (closed room_with_dead) ws_t = false.
Proof.
  split; [reflexivity|]. split; [reflexivity|].
  destruct (handle_message_blocks_on_failed_send ws_alice "A"
              (JObj (offer_body "A" "D")) room_with_dead _ eq_refl eq_refl)
    as (kind & field & t & ws_t & payload & _ & _ & Ht & Hg & Hc & _).
  exists t, ws_t. auto.
Defined.

(** ** After a failed targeted send *)

Lemma connect_blocked ws c s :
  accept_raises ws = false -> lock s = true ->
  connect ws c s = Blocked (append_trace [EvAccept ws] s).
Proof.
  intros Ha Hl. unfold connect, bind at 1, accept. rewrite Ha.
  unfold bind at 1, with_lock. simpl. rewrite Hl. reflexivity.
Qed.

Lemma websocket_endpoint_blocked ws c inbox s :
  lock s = true -> exists s', websocket_endpoint ws c inbox s = Blocked s'.
Proof.
  intros Hl. unfold websocket_endpoint, try_finally, try_except, bind.
  destruct (accept_raises ws) eqn:Ha.
  - rewrite (connect_raises ws c s Ha). unfold ret at 1.
    rewrite disconnect_blocked by exact Hl.
    eexists. reflexivity.
  - rewrite (connect_blocked ws c s Ha Hl). eexists. reflexivity.
Qed.

(** X2: [send_to] on a registered target whose socket cannot be sent to
    never returns: it calls [disconnect] with the lock held.  The target
    stays registered, and from then on the lock is never free: every
    [disconnect], [broadcast], [send_to] and [connect], and every run of
    the endpoint, waits for ever as well, while [get_users], which takes
    no lock, is still answered. *)
Theorem failed_send_wedges_relay
    (t : string) (m : json) (s : state) (ws_t : WebSocket) :
  lock s = false ->
  dict_get (active_connections s) t = Some ws_t ->
  can_send (closed s) ws_t = false ->
  let s' := append_trace [EvSendFailed ws_t m] (set_lock true s) in
  send_to t m s = Blocked s'
  /\ registered s' t = true
  /\ (forall c, disconnect c s' = Blocked s')
  /\ (forall m' ex, broadcast m' ex s' = Blocked s')
  /\ (forall t' m', send_to t' m' s' = Blocked s')
  /\ (forall ws c, accept_raises ws = false ->
                   connect ws c s' = Blocked (append_trace [EvAccept ws] s'))
  /\ (forall ws c inbox,
         exists s'', websocket_endpoint ws c inbox s' = Blocked s'')
  /\ (forall ws c fields,
         dict_get fields "type" = Some (JStr "get_users") ->
         exists s'', handle_message ws c (JObj fields) s' = Return tt s'').
Proof.
  intros Hl Hg Hc s'.
  assert (Hl' : lock s' = true) by reflexivity.
  split; [rewrite send_to_eq, Hl, Hg, Hc; reflexivity|].
  split; [unfold registered, dict_contains; simpl; rewrite Hg; reflexivity|].
  split; [intros c; apply disconnect_blocked; exact Hl'|].
  split; [intros m' ex; unfold broadcast; apply broadcast_with_blocked;
          exact Hl'|].
  split; [intros t' m'; rewrite send_to_eq, Hl'; reflexivity|].
  split; [intros ws c Ha; apply connect_blocked; assumption|].
  split; [intros ws c inbox; apply websocket_endpoint_blocked; exact Hl'|].
  intros ws c fields Ht. rewrite (handle_get_users ws c fields s' Ht).
  eexists. reflexivity.
Qed.

Lemma failed_send_wedges_relay_witness :
  lock room_with_dead = false
  /\ dict_get (active_connections room_with_dead) "D" = Some ws_dead
  /\ can_send (closed room_with_dead) ws_dead = false
  /\ disconnect "D"
       (append_trace [EvSendFailed ws_dead JNull]
          (set_lock true room_with_dead))
     = Blocked (append_trace [EvSendFailed ws_dead JNull]
                  (set_lock true room_with_dead)).
Proof.
  split; [reflexivity|]. split; [reflexivity|]. split; [reflexivity|].
  destruct (failed_send_wedges_relay "D" JNull room_with_dead ws_dead
              eq_refl eq_refl eq_refl) as (_ & _ & Hd & _).
  apply Hd.
Defined.

(** ** Bodies that are not forwarded *)

(** X5: a dict whose [type] is missing, is not a string, or is a string
    other than the four the router knows, is dropped: [handle_message]
    returns and the state is as before. *)
Theorem unknown_type_dropped
    (ws : WebSocket) (c : string) (fields : list (string * json))
    (s : state) :
  (forall k, In k known_types -> dict_get fields "type" <> Some (JStr k)) ->
  handle_message ws c (JObj fields) s = Return tt s.
Proof.
  intros H.
  assert (Hk : forall k, In k known_types ->
                 json_is_str (field_or_null fields "type") k = false).
  { intros k Hin. specialize (H k Hin). unfold field_or_null.
    destruct (dict_get fields "type") as [[| | |t| |]|]; try reflexivity.
    simpl. destruct (String.eqb_spec t k) as [->|_]; [|reflexivity].
    exfalso. apply H. reflexivity. }
  apply (handle_other ws c (JObj fields) s (field_or_null fields "type")).
  - unfold field_or_null. simpl.
    destruct (dict_get fields "type"); reflexivity.
  - apply Hk. simpl. auto.
  - intros kind field Hin. apply Hk. simpl in Hin. simpl.
    destruct Hin as [[= <- <-]|[[= <- <-]|[[= <- <-]|[]]]]; auto.
Qed.

Lemma unknown_type_dropped_witness :
  (forall k, In k known_types ->
             dict_get [("type", JStr "chat"); ("text", JStr "hi")] "type"
             <> Some (JStr k))
  /\ handle_message ws_alice "A"
       (JObj [("type", JStr "chat"); ("text", JStr "hi")]) room_alice_bob
     = Return tt room_alice_bob.
Proof.
  assert (H : forall k, In k known_types ->
                dict_get [("type", JStr "chat"); ("text", JStr "hi")] "type"
                <> Some (JStr k)).
  { intros k Hin. simpl in Hin.
    destruct Hin as [<-|[<-|[<-|[<-|[]]]]]; discriminate. }
  split; [exact H|].
  apply (unknown_type_dropped ws_alice "A" _ room_alice_bob H).
Defined.

(** X6: a body of a routed type whose [target] is missing or is anything
    but a non-empty list or dict and, when it is a string, is empty or not
    registered, is dropped: [handle_message] returns with the state as
    before, whether the lock is free or not. *)
Theorem routed_without_usable_target
    (kind field : string) (ws : WebSocket) (c : string)
    (fields : list (string * json)) (s : state) :
  In (kind, field) routed ->
  dict_get fields "type" = Some (JStr kind) ->
  target_unhashable (field_or_null fields "target") = false ->
  (forall t, field_or_null fields "target" = JStr t ->
             t = "" \/ dict_get (active_connections s) t = None) ->
  handle_message ws c (JObj fields) s = Return tt s.
Proof.
  intros Hin Ht Hu Hs.
  rewrite (handle_routed kind field ws c (JObj fields) s Hin)
    by (simpl; rewrite Ht; reflexivity).
  unfold forward, bind at 1, data_get. simpl json_get.
  fold (field_or_null fields "target").
  replace (match dict_get fields "target" with
           | Some v => Some v | None => Some JNull end)
    with (Some (field_or_null fields "target"))
    by (unfold field_or_null; destruct (dict_get fields "target");
        reflexivity).
  unfold bind at 1, target_registered.
  destruct (field_or_null fields "target") as [|b|n|t|l|l] eqn:Etarget;
    simpl in *.
  - reflexivity.
  - destruct b; reflexivity.
  - destruct (Z.eqb n 0); reflexivity.
  - destruct (Hs t eq_refl) as [->|Hn]; [reflexivity|].
    destruct (String.eqb t ""); [reflexivity|]. simpl.
    unfold dict_contains. rewrite Hn. reflexivity.
  - destruct l; [reflexivity | discriminate].
  - destruct l; [reflexivity | discriminate].
Qed.

Lemma routed_without_usable_target_witness :
  In ("answer", "answer") routed
  /\ dict_get [("type", JStr "answer"); ("target", JNum 7)] "type"
     = Some (JStr "answer")
  /\ target_unhashable
       (field_or_null [("type", JStr "answer"); ("target", JNum 7)] "target")
     = false
  /\ handle_message ws_alice "A"
       (JObj [("type", JStr "answer"); ("target", JNum 7)]) room_alice_bob
     = Return tt room_alice_bob.
Proof.
  assert (Hin : In ("answer", "answer") routed) by (simpl; auto).
  split; [exact Hin|]. split; [reflexivity|]. split; [reflexivity|].
  apply (routed_without_usable_target "answer" "answer" ws_alice "A"
           [("type", JStr "answer"); ("target", JNum 7)]
           room_alice_bob Hin eq_refl eq_refl).
  intros t Ht. discriminate.
Defined.

(** ** The endpoint *)

Lemma receive_loop_stops ws c data :
  (forall s, handle_message ws c data s = Raise s) ->
  forall before rest s,
    receive_loop ws c (before ++ RecvJson data :: rest) s
    = receive_loop ws c before s.
Proof.
  intros H before rest. induction before as [|r before IH]; intros s.
  - simpl. unfold bind, try_except. rewrite H. reflexivity.
  - destruct r as [d|]; [|reflexivity].
    simpl. unfold bind, try_except.
    destruct (handle_message ws c d s); simpl; try reflexivity.
    apply IH.
Qed.

(** X7: a frame that is not a JSON object, or that has a routed type and
    a non-empty list or dict as [target], makes [handle_message] raise,
    the state untouched; the endpoint then leaves its loop: the frames
    that follow are never handled, and the run is the one of a client
    that closed the connection at that point, clean-up included. *)
Theorem bad_frame_ends_session
    (ws : WebSocket) (c : string) (data : json) :
  (json_get data "type" = None
   \/ exists kind field target,
        In (kind, field) routed
        /\ json_get data "type" = Some (JStr kind)
        /\ json_get data "target" = Some target
        /\ target_unhashable target = true) ->
  (forall s, handle_message ws c data s = Raise s)
  /\ (forall before rest s,
         websocket_endpoint ws c (before ++ RecvJson data :: rest) s
         = websocket_endpoint ws c before s).
Proof.
  intros H.
  assert (Hr : forall s, handle_message ws c data s = Raise s).
  { intros s. destruct H as [H|(kind & field & target & Hin & Ht & Htg & Hu)].
    - apply handle_not_dict. exact H.
    - rewrite (handle_routed kind field ws c data s Hin Ht).
      unfold forward, bind at 1, data_get. rewrite Htg.
      unfold bind, target_registered.
      destruct target as [| | | |l|l]; try discriminate;
        destruct l; try discriminate; reflexivity. }
  split; [exact Hr|].
  intros before rest s.
  unfold websocket_endpoint, try_finally, try_except, bind.
  destruct (connect ws c s); try reflexivity.
  rewrite (receive_loop_stops ws c data Hr). reflexivity.
Qed.

Lemma bad_frame_ends_session_witness :
  json_get (JList [JStr "offer"]) "type" = None
  /\ websocket_endpoint ws_alice "A"
       [RecvJson (JList [JStr "offer"]);
        RecvJson (JObj (offer_body "A" "B"))] room_bob
     = websocket_endpoint ws_alice "A" [] room_bob.
Proof.
  split; [reflexivity|].
  exact (proj2 (bad_frame_ends_session ws_alice "A" (JList [JStr "offer"])
                  (or_introl eq_refl))
           [] [RecvJson (JObj (offer_body "A" "B"))] room_bob).
Defined.

Lemma handle_message_lock ws c data s s' :
  lock s = false ->
  (handle_message ws c data s = Return tt s'
   \/ handle_message ws c data s = Raise s') ->
  lock s' = false.
Proof.
  intros Hl H.
  destruct (handle_message_cases ws c data s)
    as [[_ E]|[(kind & field & _ & _ & E)|[E|[_ E]]]]; rewrite E in H.
  - destruct H as [[= <-]|H]; [exact Hl | discriminate].
  - destruct (forward_cases kind field c data s)
      as [F|[F|(t & w & payload & _ & _ & _
                & [[Hl' _]|[(_ & _ & F)|(_ & _ & F)]])]];
      try congruence; rewrite F in H;
      destruct H as [H|H]; try discriminate; injection H as <-; exact Hl.
  - destruct H as [[= <-]|H]; [exact Hl | discriminate].
  - destruct H as [H|[= <-]]; [discriminate | exact Hl].
Qed.

Lemma handle_message_no_fuel ws c data s s' :
  handle_message ws c data s <> OutOfFuel s'.
Proof.
  destruct (handle_message_cases ws c data s)
    as [[_ E]|[(kind & field & _ & _ & E)|[E|[_ E]]]]; rewrite E;
    try discriminate.
  destruct (forward_cases kind field c data s)
    as [F|[F|(t & w & payload & _ & _ & _
              & [[_ F]|[(_ & _ & F)|(_ & _ & F)]])]];
    rewrite F; discriminate.
Qed.

Lemma receive_loop_cases ws c inbox :
  forall s,
    lock s = false ->
    (exists s',
        receive_loop ws c inbox s = Return tt s'
        /\ lock s' = false
        /\ active_connections s' = active_connections s
        /\ closed s' = closed s)
    \/ (exists s', receive_loop ws c inbox s = Blocked s' /\ lock s' = true).
Proof.
  induction inbox as [|r inbox IH]; intros s Hl.
  - left. exists s. repeat split. exact Hl.
  - destruct r as [d|]; [|left; exists s; repeat split; exact Hl].
    simpl. unfold bind, try_except.
    pose proof (handle_message_frame ws c d s) as [Hr Hc].
    destruct (handle_message ws c d s) as [[] s1|s1|s1|s1] eqn:E;
      simpl in Hr, Hc.
    + assert (Hl1 : lock s1 = false).
      { apply (handle_message_lock ws c d s s1 Hl). left. exact E. }
      destruct (IH s1 Hl1) as [(s' & E' & Hl' & Hr' & Hc')|(s' & E' & Hl')].
      * left. exists s'. repeat split; try assumption; congruence.
      * right. exists s'. auto.
    + left. exists s1. repeat split; try assumption.
      apply (handle_message_lock ws c d s s1 Hl). right. exact E.
    + right. exists s1. split; [reflexivity|].
      destruct (handle_message_blocked ws c d s s1 Hl E)
        as (? & ? & ? & ? & ? & _ & _ & _ & _ & _ & _ & Hl1 & _).
      exact Hl1.
    + exfalso. apply (handle_message_no_fuel ws c d s s1 E).
Qed.

(** X9: when [accept] raises, the endpoint still runs its clean-up on the
    identifier of the path.  A connection that holds that identifier is
    the one that pays: its socket is closed, its record removed and its
    departure broadcast, although it is the new socket that failed. *)
Theorem failed_accept_evicts_holder
    (ws : WebSocket) (c : string) (inbox : list received) (s : state)
    (ws_old : WebSocket) :
  accept_raises ws = true ->
  lock s = false ->
  dict_get (active_connections s) c = Some ws_old ->
  let remaining := dict_del (active_connections s) c in
  exists s' rest,
    websocket_endpoint ws c inbox s = Return tt s'
    /\ registered s' c = false
    /\ trace s' =
       trace s
       ++ [EvAcceptFailed ws;
           (if close_raises ws_old then EvCloseFailed ws_old
            else EvClosed ws_old);
           EvDel c]
       ++ map (fun kv =>
                 send_event
                   (if close_raises ws_old then closed s
                    else ws_old :: closed s)
                   (snd kv) (user_left_msg c (length remaining)))
            remaining
       ++ rest.
Proof.
  intros Ha Hl Hg remaining.
  set (s1 := append_trace [EvAcceptFailed ws] s).
  assert (Hl1 : lock s1 = false) by exact Hl.
  assert (Hg1 : dict_get (active_connections s1) c = Some ws_old)
    by exact Hg.
  destruct (disconnect_outcome c s1 Hl1)
    as (s' & rest & E & Hl' & Hs & Ht & _ & _).
  exists s', rest. split; [|split].
  - unfold websocket_endpoint, try_finally, try_except, bind.
    rewrite (connect_raises ws c s Ha). unfold ret at 1. fold s1.
    rewrite E. reflexivity.
  - eapply shrinks_unregistered; [exact Hs | apply removed_unregisters].
  - rewrite Ht. unfold removal_events. rewrite Hg1.
    rewrite (removed_closed c s1 ws_old Hg1). simpl.
    rewrite <- !app_assoc. reflexivity.
Qed.

Lemma failed_accept_evicts_holder_witness :
  accept_raises (mkWebSocket 9 true false false) = true
  /\ lock room_alice_bob = false
  /\ dict_get (active_connections room_alice_bob) "B" = Some ws_bob
  /\ exists s',
       websocket_endpoint (mkWebSocket 9 true false false) "B" []
         room_alice_bob = Return tt s'
       /\ registered s' "B" = false.
Proof.
  split; [reflexivity|]. split; [reflexivity|]. split; [reflexivity|].
  destruct (failed_accept_evicts_holder (mkWebSocket 9 true false false)
              "B" [] room_alice_bob ws_bob eq_refl eq_refl eq_refl)
    as (s' & rest & E & Hr & _).
  exists s'. auto.
Defined.

(** ** Sweeps *)

Lemma pass_failed_nil_inv cl ex snapshot :
  pass_failed cl ex snapshot = [] ->
  Forall (fun kv => can_send cl (snd kv) = true) (recipients ex snapshot).
Proof.
  unfold pass_failed. induction (recipients ex snapshot) as [|kv l IH];
    simpl; intros H; [constructor|].
  destruct (can_send cl (snd kv)) eqn:E; simpl in H; [|discriminate].
  constructor; [exact E | apply IH; exact H].
Qed.

Lemma pass_events_sent cl m ex snapshot :
  Forall (fun kv => can_send cl (snd kv) = true) (recipients ex snapshot) ->
  pass_events cl m ex snapshot
  = map (fun kv => EvSent (snd kv) m) (recipients ex snapshot).
Proof.
  intros H. unfold pass_events. apply map_ext_in. intros kv Hkv.
  rewrite Forall_forall in H. unfold send_event. rewrite (H kv Hkv).
  reflexivity.
Qed.

Lemma sweep_each n :
  (forall c s s', lock s = false -> disconnect_ n c s = Return tt s' ->
                  lock s' = false /\ all_reachable s') ->
  forall D s s',
    lock s = false ->
    disconnect_each (disconnect_ n) D s = Return tt s' ->
    lock s' = false
    /\ (D = [] -> s' = s)
    /\ (D <> [] -> all_reachable s').
Proof.
  intros IH D. induction D as [|d D IHD]; intros s s' Hl E.
  - injection E as <-. repeat split; [exact Hl | congruence].
  - simpl in E. unfold bind in E.
    destruct (disconnect_ n d s) as [[] s1|s1|s1|s1] eqn:E1;
      try discriminate.
    destruct (IH d s s1 Hl E1) as [Hl1 Hr1].
    destruct (IHD s1 s' Hl1 E) as (Hl' & Hnil & Hcons).
    split; [exact Hl'|]. split; [discriminate|]. intros _.
    destruct D as [|d' D']; [rewrite (Hnil eq_refl); exact Hr1|].
    apply Hcons. discriminate.
Qed.

Lemma sweep_below n :
  forall c s s', lock s = false -> disconnect_ n c s = Return tt s' ->
                 lock s' = false /\ all_reachable s'.
Proof.
  induction n as [|n IH]; intros c s s' Hl E; [discriminate|].
  rewrite disconnect_step in E by exact Hl.
  rewrite broadcast_with_eq in E by (rewrite removed_lock; exact Hl).
  apply (sweep_each n IH) in E; [|simpl; rewrite removed_lock; exact Hl].
  destruct E as (Hl' & Hnil & Hcons). split; [exact Hl'|].
  destruct (pass_failed (closed (removed c s)) None
              (active_connections (removed c s))) as [|d D] eqn:ED.
  - rewrite (Hnil eq_refl). apply pass_failed_nil_inv in ED.
    rewrite recipients_none in ED. exact ED.
  - apply Hcons. discriminate.
Qed.

(** ** Sessions *)

Lemma dict_del_set (d : list (string * WebSocket)) c ws :
  dict_del (dict_set d c ws) c = dict_del d c.
Proof.
  unfold dict_del. induction d as [|[k v] d IH]; simpl.
  - rewrite String.eqb_refl. reflexivity.
  - destruct (String.eqb_spec k c) as [->|Hne]; simpl.
    + rewrite String.eqb_refl. reflexivity.
    + destruct (String.eqb_spec k c); [contradiction|]. simpl.
      rewrite IH. reflexivity.
Qed.

Lemma recipients_del c (d : list (string * WebSocket)) :
  recipients (Some c) d = dict_del d c.
Proof. reflexivity. Qed.

Lemma dict_set_length (d : list (string * WebSocket)) c ws :
  length (dict_set d c ws)
  = if dict_contains d c then length d else S (length d).
Proof.
  pose proof (dict_keys_set d c ws) as H.
  apply (f_equal (@length string)) in H. unfold dict_keys in H.
  rewrite length_map in H. rewrite H.
  destruct (dict_contains d c).
  - apply length_map.
  - rewrite length_app, length_map. simpl. lia.
Qed.

Lemma can_send_before_close cl ws w :
  can_send (ws :: cl) w = true -> can_send cl w = true.
Proof.
  unfold can_send, is_closed. simpl.
  destruct (send_raises w); simpl; [auto|].
  destruct (ws_eqb w ws); simpl; [discriminate | auto].
Qed.

Lemma connect_reaching_everyone ws c s :
  accept_raises ws = false -> lock s = false ->
  Forall (fun kv => can_send (closed s) (snd kv) = true)
    (dict_del (active_connections s) c) ->
  connect ws c s
  = Return tt
      (append_trace
         (map (fun kv =>
                 EvSent (snd kv)
                   (user_joined_msg c
                      (length (dict_set (active_connections s) c ws))))
            (dict_del (active_connections s) c))
         (admitted ws c s)).
Proof.
  intros Ha Hl Hall. rewrite connect_eq by assumption.
  assert (Er : recipients (Some c) (active_connections (admitted ws c s))
               = dict_del (active_connections s) c).
  { rewrite recipients_del. simpl. apply dict_del_set. }
  rewrite Er.
  destruct (dict_del (active_connections s) c) as [|kv l] eqn:Ed.
  - simpl. rewrite append_trace_nil. reflexivity.
  - rewrite broadcast_eq by exact Hl.
    rewrite pass_failed_nil by (rewrite Er; exact Hall).
    rewrite pass_events_sent by (rewrite Er; exact Hall).
    rewrite Er. reflexivity.
Qed.

(** X10: [connect] under an identifier that is already registered, the
    other clients being reachable.  The record is overwritten where it
    stands: the identifiers and their order are the same, the other
    records too, and the identifier now leads to the new socket.  The
    socket it replaces is not closed, and the others are sent a
    [user_joined] (the object with that [type] and the identifier as
    [client_id]) whose [users_online] is the number of clients there was
    before. *)
Theorem reconnect_replaces_in_place
    (ws : WebSocket) (c : string) (s : state) (ws_old : WebSocket) :
  accept_raises ws = false -> lock s = false ->
  dict_get (active_connections s) c = Some ws_old ->
  Forall (fun kv => can_send (closed s) (snd kv) = true)
    (dict_del (active_connections s) c) ->
  exists s',
    connect ws c s = Return tt s'
    /\ ListIDs s' = ListIDs s
    /\ dict_get (active_connections s') c = Some ws
    /\ (forall k, k <> c ->
          dict_get (active_connections s') k
          = dict_get (active_connections s) k)
    /\ closed s' = closed s
    /\ trace s' =
       trace s
       ++ [EvAccept ws; EvSet c ws;
           send_event (closed s) ws (connected_msg c)]
       ++ map (fun kv =>
                 EvSent (snd kv)
                   (JObj [("type", JStr "user_joined");
                          ("client_id", JStr c);
                          ("users_online",
                           JNum (Z.of_nat (length (active_connections s))))]))
            (dict_del (active_connections s) c).
Proof.
  intros Ha Hl Hg Hall.
  assert (Hc : dict_contains (active_connections s) c = true)
    by (unfold dict_contains; rewrite Hg; reflexivity).
  rewrite (connect_reaching_everyone ws c s Ha Hl Hall).
  eexists. split; [reflexivity|]. simpl.
  split; [|split; [|split; [|split]]].
  - unfold ListIDs. simpl. rewrite dict_keys_set, Hc. reflexivity.
  - rewrite dict_get_set, String.eqb_refl. reflexivity.
  - intros k Hk. rewrite dict_get_set.
    destruct (String.eqb_spec c k); [congruence | reflexivity].
  - reflexivity.
  - rewrite dict_set_length, Hc, <- !app_assoc. reflexivity.
Qed.

Lemma reconnect_replaces_in_place_witness :
  accept_raises ws_carol = false /\ lock room_alice_bob = false
  /\ dict_get (active_connections room_alice_bob) "A" = Some ws_alice
  /\ exists s',
       connect ws_carol "A" room_alice_bob = Return tt s'
       /\ active_connections s' = [("A", ws_carol); ("B", ws_bob)]
       /\ closed s' = []
       /\ trace s' =
          [EvAccept ws_carol; EvSet "A" ws_carol;
           EvSent ws_carol (connected_msg "A");
           EvSent ws_bob
             (JObj [("type", JStr "user_joined");
                    ("client_id", JStr "A");
                    ("users_online", JNum 2)])].
Proof.
  split; [reflexivity|]. split; [reflexivity|]. split; [reflexivity|].
  assert (Hall : Forall (fun kv => can_send (closed room_alice_bob) (snd kv)
                                   = true)
                   (dict_del (active_connections room_alice_bob) "A"))
    by (repeat constructor).
  destruct (reconnect_replaces_in_place ws_carol "A" room_alice_bob ws_alice
              eq_refl eq_refl eq_refl Hall)
    as (s' & E & _ & _ & _ & Hcl & Ht).
  exists s'. split; [exact E|]. split; [|split; [exact Hcl | exact Ht]].
  injection E as <-. reflexivity.
Defined.

(** X14: [connect] into a registry that holds no other identifier, empty
    or with a record of [c] only, sends the acknowledgement and nothing
    else: [broadcast] is not called. *)
Theorem lone_connect_broadcasts_nothing
    (ws : WebSocket) (c : string) (s : state) :
  accept_raises ws = false -> lock s = false ->
  (forall k, In k (ListIDs s) -> k = c) ->
  connect ws c s = Return tt (admitted ws c s)
  /\ emitted (connect ws c s) s
     = [EvAccept ws; EvSet c ws; send_event (closed s) ws (connected_msg c)].
Proof.
  intros Ha Hl Hk.
  assert (Hd : dict_del (active_connections s) c = []).
  { unfold dict_del, ListIDs, dict_keys in *.
    induction (active_connections s) as [|[k v] d IH]; simpl;
      [reflexivity|].
    rewrite (Hk k) by (left; reflexivity). rewrite String.eqb_refl. simpl.
    apply IH. intros k' Hin. apply Hk. right. exact Hin. }
  assert (E : connect ws c s = Return tt (admitted ws c s)).
  { rewrite connect_reaching_everyone by (try assumption; rewrite Hd;
                                          constructor).
    rewrite Hd. simpl. rewrite append_trace_nil. reflexivity. }
  split; [exact E|].
  rewrite E. apply emitted_app. reflexivity.
Qed.

Lemma lone_connect_broadcasts_nothing_witness :
  accept_raises ws_alice = false /\ lock initial = false
  /\ (forall k, In k (ListIDs initial) -> k = "A")
  /\ connect ws_alice "A" initial = Return tt (admitted ws_alice "A" initial).
Proof.
  assert (Hk : forall k, In k (ListIDs initial) -> k = "A")
    by (intros k []).
  split; [reflexivity|]. split; [reflexivity|]. split; [exact Hk|].
  exact (proj1 (lone_connect_broadcasts_nothing ws_alice "A" initial
                  eq_refl eq_refl Hk)).
Defined.

Lemma receive_loop_returns ws c inbox :
  forall s,
    lock s = false -> all_reachable s ->
    exists s',
      receive_loop ws c inbox s = Return tt s'
      /\ lock s' = false
      /\ active_connections s' = active_connections s
      /\ closed s' = closed s.
Proof.
  induction inbox as [|r inbox IH]; intros s Hl Hr.
  - exists s. repeat split. exact Hl.
  - destruct r as [d|]; [|exists s; repeat split; exact Hl].
    simpl. unfold bind, try_except.
    pose proof (handle_message_frame ws c d s) as [Hreg Hcl].
    destruct (handle_message ws c d s) as [[] s1|s1|s1|s1] eqn:E;
      simpl in Hreg, Hcl.
    + assert (Hl1 : lock s1 = false).
      { apply (handle_message_lock ws c d s s1 Hl). left. exact E. }
      assert (Hr1 : all_reachable s1).
      { unfold all_reachable. rewrite Hreg, Hcl. exact Hr. }
      destruct (IH s1 Hl1 Hr1) as (s' & E' & Hl' & Hreg' & Hcl').
      exists s'. repeat split; try assumption; congruence.
    + exists s1. repeat split; try assumption.
      apply (handle_message_lock ws c d s s1 Hl). right. exact E.
    + exfalso.
      destruct (handle_message_blocked ws c d s s1 Hl E)
        as (kind & field & t & w & payload & _ & _ & _ & Hg & Hc & _).
      unfold all_reachable in Hr. rewrite Forall_forall in Hr.
      specialize (Hr (t, w) (dict_get_In _ _ _ Hg)). simpl in Hr.
      congruence.
    + exfalso. apply (handle_message_no_fuel ws c d s s1 E).
Qed.

(** X11: a whole session under a fresh identifier, on a socket that can
    be sent to, among clients that can all be reached: whatever frames the
    client sends, the endpoint returns, and the registry is then the very
    one it started from, and the lock is free. *)
Theorem session_restores_registry
    (ws : WebSocket) (c : string) (inbox : list received) (s : state) :
  accept_raises ws = false -> lock s = false ->
  registered s c = false ->
  can_send (closed s) ws = true ->
  Forall (fun kv => can_send (ws :: closed s) (snd kv) = true)
    (active_connections s) ->
  exists s',
    websocket_endpoint ws c inbox s = Return tt s'
    /\ active_connections s' = active_connections s
    /\ lock s' = false.
Proof.
  intros Ha Hl Hc Hws Hall.
  assert (Hd : dict_del (active_connections s) c = active_connections s)
    by (apply dict_del_absent; exact Hc).
  assert (Hall0 : Forall (fun kv => can_send (closed s) (snd kv) = true)
                    (active_connections s)).
  { eapply Forall_impl; [|exact Hall]. intros kv H.
    apply (can_send_before_close _ ws). exact H. }
  pose proof (connect_reaching_everyone ws c s Ha Hl) as E1.
  rewrite Hd in E1. specialize (E1 Hall0).
  set (s1 := append_trace _ (admitted ws c s)) in E1.
  assert (Hreg1 : active_connections s1
                  = active_connections s ++ [(c, ws)]).
  { simpl. clear - Hc. unfold registered, dict_contains in Hc.
    induction (active_connections s) as [|[k v] d IH]; simpl;
      [reflexivity|].
    simpl in Hc. destruct (String.eqb k c); [discriminate|].
    rewrite IH by exact Hc. reflexivity. }
  assert (Hr1 : all_reachable s1).
  { unfold all_reachable. rewrite Hreg1. apply Forall_app. split.
    - exact Hall0.
    - constructor; [exact Hws | constructor]. }
  destruct (receive_loop_returns ws c inbox s1 Hl Hr1)
    as (s2 & E2 & Hl2 & Hreg2 & Hcl2).
  assert (Hg2 : dict_get (active_connections s2) c = Some ws).
  { rewrite Hreg2. simpl. rewrite dict_get_set, String.eqb_refl.
    reflexivity. }
  assert (Hdel2 : dict_del (active_connections s2) c
                  = active_connections s).
  { rewrite Hreg2. simpl. rewrite dict_del_set. exact Hd. }
  destruct (disconnect_outcome c s2 Hl2)
    as (s' & rest & E & Hl' & _ & _ & _ & Hh).
  rewrite Hdel2 in Hh.
  destruct Hh as [_ Hreg'].
  { rewrite (removed_closed c s2 ws Hg2), Hcl2. simpl.
    destruct (close_raises ws); [exact Hall0 | exact Hall]. }
  exists s'. split; [|split; [exact Hreg' | exact Hl']].
  unfold websocket_endpoint, try_finally, try_except, bind.
  rewrite E1, E2, E. reflexivity.
Qed.

Lemma session_restores_registry_witness :
  accept_raises ws_carol = false /\ lock room_alice_bob = false
  /\ registered room_alice_bob "C" = false
  /\ can_send (closed room_alice_bob) ws_carol = true
  /\ exists s',
       websocket_endpoint ws_carol "C"
         [RecvJson (JObj (offer_body "C" "B")); RecvJson (JObj get_users_body)]
         room_alice_bob = Return tt s'
       /\ active_connections s' = active_connections room_alice_bob.
Proof.
  split; [reflexivity|]. split; [reflexivity|]. split; [reflexivity|].
  split; [reflexivity|].
  assert (Hall : Forall (fun kv => can_send (ws_carol :: closed room_alice_bob)
                                     (snd kv) = true)
                   (active_connections room_alice_bob))
    by (repeat constructor).
  destruct (session_restores_registry ws_carol "C"
              [RecvJson (JObj (offer_body "C" "B"));
               RecvJson (JObj get_users_body)]
              room_alice_bob eq_refl eq_refl eq_refl eq_refl Hall)
    as (s' & E & Hr & _).
  exists s'. auto.
Defined.

(** ** Disconnecting twice, and after a replacement *)

Lemma removed_absent c s : registered s c = false -> removed c s = s.
Proof.
  unfold registered, dict_contains, removed.
  destruct (dict_get (active_connections s) c); [discriminate | reflexivity].
Qed.

Lemma disconnect_reaching_everyone c s :
  lock s = false ->
  Forall (fun kv => can_send (closed (removed c s)) (snd kv) = true)
    (active_connections (removed c s)) ->
  disconnect c s = Return tt (after_pass c s).
Proof.
  intros Hl Hall. rewrite disconnect_eq by exact Hl.
  unfold disconnect_failed. rewrite pass_failed_nil; [reflexivity|].
  rewrite recipients_none. exact Hall.
Qed.

(** X15: [disconnect] twice for the same identifier, whatever sockets
    fail.  Both calls return; the second one finds nothing to remove and
    nobody unreachable, so it leaves the registry and the closed sockets
    as the first one left them, and yet sends a second [user_left] about
    the identifier to every client that remains. *)
Theorem second_disconnect_only_rebroadcasts (c : string) (s : state) :
  lock s = false ->
  exists s1 s2,
    disconnect c s = Return tt s1
    /\ disconnect c s1 = Return tt s2
    /\ active_connections s2 = active_connections s1
    /\ closed s2 = closed s1
    /\ lock s2 = false
    /\ trace s2 =
       trace s1
       ++ map (fun kv =>
                 EvSent (snd kv)
                   (user_left_msg c (length (active_connections s1))))
            (active_connections s1).
Proof.
  intros Hl. destruct (disconnect_returns c s Hl) as (s1 & E1 & Hp).
  destruct (disconnect_post_summary c s s1 Hl Hp) as (Hl1 & _ & Hc1 & _).
  destruct (sweep_below (fuel_for s) c s s1 Hl E1) as [_ Hr1].
  assert (E2 : disconnect c s1 = Return tt (after_pass c s1)).
  { apply disconnect_reaching_everyone; [exact Hl1|].
    rewrite (removed_absent c s1 Hc1). exact Hr1. }
  exists s1, (after_pass c s1). split; [exact E1|]. split; [exact E2|].
  unfold after_pass. rewrite (removed_absent c s1 Hc1). simpl.
  repeat split; try assumption.
  f_equal. unfold pass_events. rewrite recipients_none.
  apply map_ext_in. intros kv Hkv.
  unfold all_reachable in Hr1. rewrite Forall_forall in Hr1.
  unfold send_event. rewrite (Hr1 kv Hkv). reflexivity.
Qed.

Lemma second_disconnect_only_rebroadcasts_witness :
  lock room_alice_bob = false
  /\ exists s1 s2,
       disconnect "A" room_alice_bob = Return tt s1
       /\ disconnect "A" s1 = Return tt s2
       /\ active_connections s2 = [("B", ws_bob)]
       /\ trace s2 = [EvClosed ws_alice; EvDel "A";
                      EvSent ws_bob (user_left_msg "A" 1);
                      EvSent ws_bob (user_left_msg "A" 1)].
Proof.
  split; [reflexivity|].
  destruct (second_disconnect_only_rebroadcasts "A" room_alice_bob eq_refl)
    as (s1 & s2 & E1 & E2 & Hr & _ & _ & Ht).
  exists s1, s2. split; [exact E1|]. split; [exact E2|].
  injection E1 as <-. split; [exact Hr | exact Ht].
Defined.

(** X16: an identifier is taken over by a second socket, and then
    [disconnect] is called for it, as the endpoint of the first socket
    does when its session ends.  The socket that is closed and whose
    record is removed is the second one; the first socket, which the
    registry forgot when it was replaced, is never closed by the relay. *)
Theorem disconnect_after_replacement_closes_newcomer
    (ws_new : WebSocket) (c : string) (s : state) (ws_old : WebSocket) :
  accept_raises ws_new = false -> lock s = false ->
  dict_get (active_connections s) c = Some ws_old ->
  close_raises ws_new = false ->
  Forall (fun kv => can_send (ws_new :: closed s) (snd kv) = true)
    (dict_del (active_connections s) c) ->
  exists s1 s2,
    connect ws_new c s = Return tt s1
    /\ disconnect c s1 = Return tt s2
    /\ active_connections s2 = dict_del (active_connections s) c
    /\ closed s2 = ws_new :: closed s
    /\ (ws_old <> ws_new ->
        is_closed (closed s2) ws_old = is_closed (closed s) ws_old).
Proof.
  intros Ha Hl Hg Hcr Hall.
  assert (Hall0 : Forall (fun kv => can_send (closed s) (snd kv) = true)
                    (dict_del (active_connections s) c)).
  { eapply Forall_impl; [|exact Hall]. intros kv H.
    apply (can_send_before_close _ ws_new). exact H. }
  pose proof (connect_reaching_everyone ws_new c s Ha Hl Hall0) as E1.
  set (s1 := append_trace _ (admitted ws_new c s)) in E1.
  assert (Hg1 : dict_get (active_connections s1) c = Some ws_new).
  { simpl. rewrite dict_get_set, String.eqb_refl. reflexivity. }
  assert (Hcl : closed (removed c s1) = ws_new :: closed s).
  { rewrite (removed_closed c s1 ws_new Hg1), Hcr. reflexivity. }
  assert (Hreg : active_connections (removed c s1)
                 = dict_del (active_connections s) c).
  { rewrite removed_connections. simpl. apply dict_del_set. }
  assert (E2 : disconnect c s1 = Return tt (after_pass c s1)).
  { apply disconnect_reaching_everyone; [exact Hl|].
    rewrite Hcl, Hreg. exact Hall. }
  exists s1, (after_pass c s1). split; [exact E1|]. split; [exact E2|].
  unfold after_pass. simpl. rewrite Hcl, Hreg.
  split; [reflexivity|]. split; [reflexivity|].
  intros Hne. unfold is_closed. simpl.
  destruct (ws_eqb ws_old ws_new) eqn:E; [|reflexivity].
  apply ws_eqb_eq in E. contradiction.
Qed.

Lemma disconnect_after_replacement_closes_newcomer_witness :
  accept_raises ws_carol = false /\ lock room_alice_bob = false
  /\ dict_get (active_connections room_alice_bob) "A" = Some ws_alice
  /\ close_raises ws_carol = false
  /\ exists s1 s2,
       connect ws_carol "A" room_alice_bob = Return tt s1
       /\ disconnect "A" s1 = Return tt s2
       /\ active_connections s2 = [("B", ws_bob)]
       /\ closed s2 = [ws_carol].
Proof.
  split; [reflexivity|]. split; [reflexivity|]. split; [reflexivity|].
  split; [reflexivity|].
  assert (Hall : Forall (fun kv => can_send (ws_carol :: closed room_alice_bob)
                                     (snd kv) = true)
                   (dict_del (active_connections room_alice_bob) "A"))
    by (repeat constructor).
  destruct (disconnect_after_replacement_closes_newcomer ws_carol "A"
              room_alice_bob ws_alice eq_refl eq_refl eq_refl eq_refl Hall)
    as (s1 & s2 & E1 & E2 & Hr & Hc & _).
  exists s1, s2. auto.
Defined.

(** ** The depth of the cascade *)

Lemma removed_closed_incl c s : incl (closed s) (closed (removed c s)).
Proof.
  unfold removed. destruct (dict_get (active_connections s) c) as [ws|];
    [|apply incl_refl].
  unfold close_effect. destruct (close_raises ws); simpl;
    [apply incl_refl | apply incl_tl, incl_refl].
Qed.

Lemma can_send_incl cl cl' w :
  incl cl cl' -> can_send cl' w = true -> can_send cl w = true.
Proof.
  intros Hi. unfold can_send, is_closed.
  destruct (send_raises w); simpl; [auto|].
  destruct (existsb (ws_eqb w) cl) eqn:E; [|auto].
  apply existsb_exists in E. destruct E as (x & Hx & Hw).
  intros H. assert (Hc : existsb (ws_eqb w) cl' = true).
  { apply existsb_exists. exists x. split; [apply Hi; exact Hx | exact Hw]. }
  rewrite Hc in H. discriminate.
Qed.

Lemma can_send_cons_dead cl w1 w :
  can_send cl w1 = false -> can_send (w1 :: cl) w = can_send cl w.
Proof.
  intros Hd. unfold can_send, is_closed in *. simpl.
  destruct (ws_eqb w w1) eqn:E; [|reflexivity].
  apply ws_eqb_eq in E. subst w. simpl. rewrite Hd.
  destruct (send_raises w1); reflexivity.
Qed.

Lemma cascade_partial_each n :
  (forall c s s', lock s = false -> disconnect_ n c s = Return tt s' ->
                  shrinks s s' /\ registered s' c = false
                  /\ incl (closed s) (closed s')) ->
  forall D s s',
    lock s = false ->
    disconnect_each (disconnect_ n) D s = Return tt s' ->
    shrinks s s' /\ incl (closed s) (closed s').
Proof.
  intros IH D. induction D as [|d D IHD]; intros s s' Hl E.
  - injection E as <-. split; [apply shrinks_refl | apply incl_refl].
  - simpl in E. unfold bind in E.
    destruct (disconnect_ n d s) as [[] s1|s1|s1|s1] eqn:E1;
      try discriminate.
    destruct (IH d s s1 Hl E1) as (Hs1 & _ & Hc1).
    destruct (sweep_below n d s s1 Hl E1) as [Hl1 _].
    destruct (IHD s1 s' Hl1 E) as [Hs' Hc'].
    split; [eapply shrinks_trans; eassumption
           | eapply incl_tran; eassumption].
Qed.

Lemma cascade_partial n :
  forall c s s', lock s = false -> disconnect_ n c s = Return tt s' ->
                 shrinks s s' /\ registered s' c = false
                 /\ incl (closed s) (closed s').
Proof.
  induction n as [|n IH]; intros c s s' Hl E; [discriminate|].
  rewrite disconnect_step in E by exact Hl.
  rewrite broadcast_with_eq in E by (rewrite removed_lock; exact Hl).
  apply (cascade_partial_each n IH) in E;
    [|simpl; rewrite removed_lock; exact Hl].
  destruct E as [Hs Hc]. simpl in Hc.
  assert (Hs0 : shrinks s s').
  { eapply shrinks_trans; [apply (shrinks_removed c s)|].
    eapply shrinks_trans; [|exact Hs]. apply shrinks_same. reflexivity. }
  split; [exact Hs0|]. split.
  - eapply shrinks_unregistered; [exact Hs|].
    unfold registered. simpl. apply removed_unregisters.
  - eapply incl_tran; [apply removed_closed_incl | exact Hc].
Qed.

Lemma pass_failed_In cl ex (d : list (string * WebSocket)) k :
  In k (pass_failed cl ex d) <->
  exists w, In (k, w) d /\ not_excluded k ex = true
            /\ can_send cl w = false.
Proof.
  unfold pass_failed, recipients. rewrite in_map_iff. split.
  - intros ([k' w] & Hk & H). simpl in Hk. subst k'.
    rewrite !filter_In in H. simpl in H. destruct H as [[Hin Hex] Hc].
    exists w. repeat split; try assumption.
    destruct (can_send cl w); [discriminate | reflexivity].
  - intros (w & Hin & Hex & Hc). exists (k, w). split; [reflexivity|].
    rewrite !filter_In. simpl. rewrite Hc. auto.
Qed.

Lemma entry_unique (d : list (string * WebSocket)) k w1 w2 :
  NoDup (dict_keys d) -> In (k, w1) d -> In (k, w2) d -> w1 = w2.
Proof.
  unfold dict_keys. induction d as [|[k' w'] d IH]; simpl; [intros _ []|].
  intros Hnd H1 H2. inversion Hnd as [|? ? Hk Hd]; subst.
  assert (Hnot : forall w, In (k', w) d -> False).
  { intros w Hin. apply Hk. apply in_map_iff. exists (k', w). auto. }
  destruct H1 as [E1|H1], H2 as [E2|H2].
  - congruence.
  - injection E1 as -> _. exfalso. eapply Hnot. exact H2.
  - injection E2 as -> _. exfalso. eapply Hnot. exact H1.
  - apply IH; assumption.
Qed.

Lemma entry_dict_get (d : list (string * WebSocket)) k w :
  NoDup (dict_keys d) -> In (k, w) d -> dict_get d k = Some w.
Proof.
  intros Hnd Hin.
  assert (Hc : dict_contains d k = true).
  { apply dict_contains_keys. unfold dict_keys. apply in_map_iff.
    exists (k, w). auto. }
  unfold dict_contains in Hc.
  destruct (dict_get d k) as [w'|] eqn:Hg; [|discriminate].
  apply dict_get_In in Hg. f_equal. apply (entry_unique d k w' w); assumption.
Qed.

Lemma pass_failed_del cl (d : list (string * WebSocket)) k :
  pass_failed cl None (dict_del d k)
  = filter (fun k' => negb (String.eqb k' k)) (pass_failed cl None d).
Proof.
  unfold pass_failed. rewrite !recipients_none. unfold dict_del.
  induction d as [|[k' w] d IH]; simpl; [reflexivity|].
  destruct (String.eqb k' k) eqn:Ek; simpl.
  - destruct (can_send cl w); simpl; [exact IH|]. rewrite Ek. exact IH.
  - destruct (can_send cl w); simpl; [exact IH|]. rewrite Ek. simpl.
    f_equal. exact IH.
Qed.

Lemma filter_out_shorter (l : list string) k :
  In k l ->
  length (filter (fun k' => negb (String.eqb k' k)) l) < length l.
Proof.
  induction l as [|x l IH]; simpl; [intros []|].
  intros [->|Hin].
  - rewrite String.eqb_refl. simpl.
    clear IH. induction l as [|y l IHl]; simpl; [lia|].
    destruct (negb (String.eqb y k)); simpl; lia.
  - specialize (IH Hin). destruct (negb (String.eqb x k)); simpl; lia.
Qed.

Lemma quiet_each n D :
  forall s,
    0 < n -> lock s = false -> all_reachable s ->
    (forall d, In d D -> registered s d = false) ->
    exists s', disconnect_each (disconnect_ n) D s = Return tt s'.
Proof.
  induction D as [|d D IH]; intros s Hn Hl Hr Hd.
  - exists s. reflexivity.
  - destruct n as [|m]; [lia|].
    assert (Hd1 : registered s d = false) by (apply Hd; left; reflexivity).
    assert (E : disconnect_ (S m) d s = Return tt (after_pass d s)).
    { rewrite disconnect_step by exact Hl.
      rewrite broadcast_with_eq by (rewrite removed_lock; exact Hl).
      rewrite pass_failed_nil; [reflexivity|].
      rewrite recipients_none, (removed_absent d s Hd1). exact Hr. }
    destruct (IH (after_pass d s)) as (s' & E').
    + lia.
    + unfold after_pass. simpl. rewrite removed_lock. exact Hl.
    + unfold all_reachable, after_pass. simpl.
      rewrite (removed_absent d s Hd1). exact Hr.
    + intros d' Hin. unfold registered, after_pass. simpl.
      rewrite (removed_absent d s Hd1). apply Hd. right. exact Hin.
    + exists s'. cbn [disconnect_each]. unfold bind at 1. rewrite E.
      exact E'.
Qed.

Lemma disconnect_failed_shorter d s :
  NoDup (ListIDs s) -> In d (unreachable s) ->
  length (disconnect_failed d s) < length (unreachable s).
Proof.
  intros Hnd Hin. unfold unreachable in *.
  pose proof Hin as Hin'. apply pass_failed_In in Hin'.
  destruct Hin' as (w & Hw & _ & Hc).
  assert (Hg : dict_get (active_connections s) d = Some w)
    by (apply entry_dict_get; assumption).
  unfold disconnect_failed.
  rewrite removed_connections, (removed_closed d s w Hg).
  assert (E : pass_failed (if close_raises w then closed s
                           else w :: closed s) None
                (dict_del (active_connections s) d)
              = pass_failed (closed s) None
                  (dict_del (active_connections s) d)).
  { destruct (close_raises w); [reflexivity|].
    unfold pass_failed. f_equal. apply filter_ext_in_bool.
    intros kv _. rewrite (can_send_cons_dead (closed s) w (snd kv) Hc).
    reflexivity. }
  rewrite E, pass_failed_del. apply filter_out_shorter. exact Hin.
Qed.

Lemma depth_each n :
  (forall c s, lock s = false -> NoDup (ListIDs s) ->
               length (disconnect_failed c s) < n ->
               exists s', disconnect_ n c s = Return tt s') ->
  forall D s,
    lock s = false -> NoDup (ListIDs s) ->
    length (unreachable s) <= n ->
    (forall d, In d D -> In d (unreachable s)) ->
    exists s', disconnect_each (disconnect_ n) D s = Return tt s'.
Proof.
  intros IH D s Hl Hnd Hn HD.
  destruct D as [|d1 D]; [exists s; reflexivity|].
  assert (Hd1 : In d1 (unreachable s)) by (apply HD; left; reflexivity).
  assert (Hpos : 0 < n).
  { destruct (unreachable s); [destruct Hd1 | simpl in Hn; lia]. }
  destruct (IH d1 s Hl Hnd) as (s1 & E1).
  { pose proof (disconnect_failed_shorter d1 s Hnd Hd1). lia. }
  destruct (sweep_below n d1 s s1 Hl E1) as [Hl1 Hr1].
  destruct (cascade_partial n d1 s s1 Hl E1) as (Hs1 & _ & Hc1).
  destruct (quiet_each n D s1 Hpos Hl1 Hr1) as (s' & E').
  - intros d Hin.
    destruct (registered s1 d) eqn:Hreg; [exfalso | reflexivity].
    assert (Hu : In d (unreachable s)) by (apply HD; right; exact Hin).
    unfold unreachable in Hu. apply pass_failed_In in Hu.
    destruct Hu as (w & Hw & _ & Hdead).
    unfold registered, dict_contains in Hreg.
    destruct (dict_get (active_connections s1) d) as [w1|] eqn:Hg;
      [|discriminate].
    apply dict_get_In in Hg.
    assert (Hin1 : In (d, w1) (active_connections s)).
    { destruct Hs1 as [f Hf]. rewrite Hf in Hg. apply filter_In in Hg.
      apply Hg. }
    assert (Ew : w1 = w) by (apply (entry_unique _ d w1 w Hnd Hin1 Hw)).
    subst w1. unfold all_reachable in Hr1. rewrite Forall_forall in Hr1.
    specialize (Hr1 (d, w) Hg). simpl in Hr1.
    apply (can_send_incl _ _ _ Hc1) in Hr1. congruence.
  - exists s'. simpl. unfold bind. rewrite E1. exact E'.
Qed.

Lemma depth_suffices n :
  forall c s, lock s = false -> NoDup (ListIDs s) ->
              length (disconnect_failed c s) < n ->
              exists s', disconnect_ n c s = Return tt s'.
Proof.
  induction n as [|n IH]; intros c s Hl Hnd Hn; [lia|].
  rewrite disconnect_step by exact Hl.
  rewrite broadcast_with_eq by (rewrite removed_lock; exact Hl).
  apply (depth_each n IH).
  - simpl. rewrite removed_lock. exact Hl.
  - apply (shrinks_NoDup s); [|exact Hnd].
    eapply shrinks_trans; [apply (shrinks_removed c s)|].
    apply shrinks_same. reflexivity.
  - unfold unreachable. simpl. unfold disconnect_failed in Hn. lia.
  - intros d Hin. exact Hin.
Qed.

(** X12: [disconnect] and [broadcast] call each other.  Whenever
    [disconnect] returns, however deep the calls were allowed to nest, the
    lock is free, its identifier is not registered, the registry is the
    initial one less some entries, and every socket still registered can
    be sent to: the unreachable clients are all gone.  And with unique
    identifiers it does return as soon as [d + 1] nested calls of
    [disconnect] are allowed, [d] being the number of clients that cannot
    be reached once its own record is removed. *)
Theorem disconnect_sweeps_unreachable (c : string) (s : state) :
  lock s = false ->
  (forall n s',
      disconnect_ n c s = Return tt s' ->
      lock s' = false /\ registered s' c = false
      /\ shrinks s s' /\ all_reachable s')
  /\ (NoDup (ListIDs s) ->
      forall n, length (disconnect_failed c s) < n ->
                exists s', disconnect_ n c s = Return tt s').
Proof.
  intros Hl. split.
  - intros n s' E.
    destruct (sweep_below n c s s' Hl E) as [Hl' Hr].
    destruct (cascade_partial n c s s' Hl E) as (Hs & Hc & _).
    auto.
  - intros Hnd n Hn. apply depth_suffices; assumption.
Qed.

Lemma disconnect_sweeps_unreachable_witness :
  lock room_with_dead = false
  /\ NoDup (ListIDs room_with_dead)
  /\ length (disconnect_failed "A" room_with_dead) < 2
  /\ exists s',
       disconnect_ 2 "A" room_with_dead = Return tt s'
       /\ active_connections s' = [("B", ws_bob)]
       /\ all_reachable s'.
Proof.
  assert (Hnd : NoDup (ListIDs room_with_dead)).
  { simpl. repeat constructor; simpl; intuition discriminate. }
  assert (Hn : length (disconnect_failed "A" room_with_dead) < 2)
    by (vm_compute; lia).
  split; [reflexivity|]. split; [exact Hnd|]. split; [exact Hn|].
  destruct (disconnect_sweeps_unreachable "A" room_with_dead eq_refl)
    as [Hpart Hdepth].
  destruct (Hdepth Hnd 2 Hn) as (s' & E).
  exists s'. split; [exact E|].
  destruct (Hpart 2 s' E) as (_ & _ & _ & Hr). split; [|exact Hr].
  injection E as <-. reflexivity.
Defined.

(** X13: whenever [broadcast] returns, however deep its clean-up was
    allowed to nest, the lock is free, the registry is the initial one
    less some entries, and every registered client that was not excluded
    can be sent to.  When every recipient can be reached it does return,
    and nothing changed but the trace, which grew by one delivery per
    recipient, in the order of the registry: nobody is closed or removed,
    the excluded client no more than the others. *)
Theorem broadcast_sweeps_recipients
    (m : json) (ex : option string) (s : state) :
  lock s = false ->
  (forall n s',
      broadcast_with (disconnect_ n) m ex s = Return tt s' ->
      lock s' = false
      /\ shrinks s s'
      /\ (forall k w, In (k, w) (active_connections s') ->
                      not_excluded k ex = true ->
                      can_send (closed s') w = true))
  /\ (Forall (fun kv => can_send (closed s) (snd kv) = true)
        (recipients ex (active_connections s)) ->
      broadcast m ex s
      = Return tt
          (append_trace
             (map (fun kv => EvSent (snd kv) m)
                (recipients ex (active_connections s))) s)).
Proof.
  intros Hl. split.
  - intros n s' E. rewrite broadcast_with_eq in E by exact Hl.
    set (s2 := append_trace
                 (pass_events (closed s) m ex (active_connections s)) s)
      in E.
    assert (Hl2 : lock s2 = false) by exact Hl.
    pose proof (sweep_each n (sweep_below n) _ s2 s' Hl2 E)
      as (Hl' & Hnil & Hcons).
    pose proof (cascade_partial_each n (cascade_partial n) _ s2 s' Hl2 E)
      as [Hs _].
    split; [exact Hl'|].
    split; [eapply shrinks_trans; [|exact Hs]; apply shrinks_same;
            reflexivity|].
    destruct (pass_failed (closed s) ex (active_connections s))
      as [|d D] eqn:ED.
    + rewrite (Hnil eq_refl). simpl. intros k w Hin Hne.
      apply pass_failed_nil_inv in ED. rewrite Forall_forall in ED.
      apply (ED (k, w)). apply filter_In. split; assumption.
    + intros k w Hin _.
      assert (Hr : all_reachable s') by (apply Hcons; discriminate).
      unfold all_reachable in Hr. rewrite Forall_forall in Hr.
      apply (Hr (k, w) Hin).
  - intros Hall. rewrite broadcast_eq by exact Hl.
    rewrite pass_failed_nil by exact Hall.
    rewrite pass_events_sent by exact Hall. reflexivity.
Qed.

Lemma broadcast_sweeps_recipients_witness :
  lock room_with_dead = false
  /\ Forall (fun kv => can_send (closed room_with_dead) (snd kv) = true)
       (recipients (Some "D") (active_connections room_with_dead))
  /\ broadcast JNull (Some "D") room_with_dead
     = Return tt
         (append_trace [EvSent ws_alice JNull; EvSent ws_bob JNull]
            room_with_dead).
Proof.
  assert (Hall : Forall (fun kv => can_send (closed room_with_dead) (snd kv)
                                   = true)
                   (recipients (Some "D")
                      (active_connections room_with_dead)))
    by (repeat constructor).
  split; [reflexivity|]. split; [exact Hall|].
  exact (proj2 (broadcast_sweeps_recipients JNull (Some "D")
                  room_with_dead eq_refl) Hall).
Defined.

(** X8: whenever the endpoint, started with the lock free, returns, its
    identifier is not registered any more and the lock is free: whatever
    the frames were, whether a handler raised and whether [accept] raised
    or not, the way out goes through [disconnect]. *)
Theorem endpoint_always_unregisters
    (ws : WebSocket) (c : string) (inbox : list received) (s s' : state) :
  lock s = false ->
  websocket_endpoint ws c inbox s = Return tt s' ->
  lock s' = false /\ registered s' c = false.
Proof.
  intros Hl E.
  assert (Hfin : forall s1 s2, lock s1 = false ->
             disconnect c s1 = Return tt s2 ->
             lock s2 = false /\ registered s2 c = false).
  { intros s1 s2 Hl1 E1.
    destruct (sweep_below _ c s1 s2 Hl1 E1) as [Hl2 _].
    destruct (cascade_partial _ c s1 s2 Hl1 E1) as (_ & Hc & _). auto. }
  unfold websocket_endpoint, try_finally, try_except, bind in E.
  destruct (accept_raises ws) eqn:Ha.
  - rewrite (connect_raises ws c s Ha) in E. unfold ret at 1 in E.
    destruct (disconnect c (append_trace [EvAcceptFailed ws] s))
      as [[] s2|s2|s2|s2] eqn:E2; try discriminate.
    injection E as <-.
    apply (Hfin (append_trace [EvAcceptFailed ws] s) s2 Hl E2).
  - destruct (connect_returns ws c s Ha Hl) as (s1 & rest & E1 & Hl1 & _).
    rewrite E1 in E.
    destruct (receive_loop_cases ws c inbox s1 Hl1)
      as [(s2 & E2 & Hl2 & _)|(s2 & E2 & _)]; rewrite E2 in E;
      [|discriminate].
    destruct (disconnect c s2) as [[] s3|s3|s3|s3] eqn:E3; try discriminate.
    injection E as <-. apply (Hfin s2 s3 Hl2 E3).
Qed.

Lemma endpoint_always_unregisters_witness :
  lock room_alice_bob = false
  /\ exists s',
       websocket_endpoint ws_carol "B" [RecvJson (JObj get_users_body)]
         room_alice_bob = Return tt s'
       /\ registered s' "B" = false.
Proof.
  split; [reflexivity|].
  eexists. split; [reflexivity|].
  apply (endpoint_always_unregisters ws_carol "B"
           [RecvJson (JObj get_users_body)] room_alice_bob _ eq_refl eq_refl).
Defined.
